(** * Batch feedback analysis: a shallow embedding of [batch_analysis.py]

    The script fetches feedback notes page by page, renders them into a
    prompt, asks a completion service for a trend analysis, splits the
    analysis into Slack blocks and posts them.  The pure helpers
    ([prepare_analysis_prompt], [split_text_for_blocks]) are embedded as
    functions on Python values; the effectful ones ([fetch_feedback_notes],
    [analyze_trends_with_gpt], [post_analysis_to_slack], [main]) run in a
    small state-and-exception monad over a log of the calls they make. *)

From Stdlib Require Import Ascii String.
From Stdlib Require Import List ZArith NArith Lia Bool.
From Stdlib Require Import DecimalString DecimalPos.
Import ListNotations.

Local Open Scope Z_scope.

(** ** Python values used by the script *)

Module Py.

(** A [str] is a sequence of Unicode code points. *)
Definition char := N.
Definition str := list char.

Definition NL : char := 10%N.

Definition of_string (s : string) : str :=
  map N_of_ascii (list_ascii_of_string s).

Definition str_eqb (a b : str) : bool :=
  if list_eq_dec N.eq_dec a b then true else false.

(** [len(s)] *)
Definition len {A} (s : list A) : Z := Z.of_nat (length s).

(** [s[:n]]: a negative bound counts from the end, and every bound is
    clamped to the sequence. *)
Definition slice_to {A} (s : list A) (n : Z) : list A :=
  if n <? 0 then firstn (Z.to_nat (len s + n)) s
  else firstn (Z.to_nat n) s.

(** [s[n:]] *)
Definition slice_from {A} (s : list A) (n : Z) : list A :=
  if n <? 0 then skipn (Z.to_nat (len s + n)) s
  else skipn (Z.to_nat n) s.

(** [s.rfind(c)] for a one-character needle: the highest index holding
    [c], or [-1].  [i] is the index of the head of [s], [last] the best
    index seen so far. *)
Fixpoint rfind_from (s : str) (c : char) (i last : Z) : Z :=
  match s with
  | [] => last
  | x :: s' => rfind_from s' c (i + 1) (if N.eqb x c then i else last)
  end.

Definition rfind (s : str) (c : char) : Z := rfind_from s c 0 (-1).

(** [s.lstrip(c)] for a one-character set. *)
Fixpoint lstrip_char (s : str) (c : char) : str :=
  match s with
  | x :: s' => if N.eqb x c then lstrip_char s' c else s
  | [] => []
  end.

(** [str.isspace] on one code point: the white-space table of CPython's
    Unicode database. *)
Definition isspace (c : char) : bool :=
  ((9 <=? c) && (c <=? 13) || (28 <=? c) && (c <=? 32)
   || (c =? 133) || (c =? 160) || (c =? 5760)
   || (8192 <=? c) && (c <=? 8202)
   || (c =? 8232) || (c =? 8233) || (c =? 8239) || (c =? 8287)
   || (c =? 12288))%N.

Fixpoint lstrip (s : str) : str :=
  match s with
  | x :: s' => if isspace x then lstrip s' else s
  | [] => []
  end.

Definition rstrip (s : str) : str := List.rev (lstrip (List.rev s)).

(** [s.strip()] *)
Definition strip (s : str) : str := rstrip (lstrip s).

(** [sep.join(l)] *)
Fixpoint join (sep : str) (l : list str) : str :=
  match l with
  | [] => []
  | [a] => a
  | a :: l' => a ++ sep ++ join sep l'
  end.

(** [str(z)] for an [int], as an f-string renders it. *)
Definition str_of_int (z : Z) : str :=
  of_string (NilZero.string_of_int (Z.to_int z)).

End Py.

Import Py.

(** ** The message chunker: [split_text_for_blocks] *)

(** A Slack section block: [{"type": .., "text": {"type": .., "text": ..}}]. *)
Record text_object := { to_type : str; to_text : str }.
Record block := { blk_type : str; blk_text : text_object }.

Definition section_block (chunk : str) : block :=
  {| blk_type := of_string "section";
     blk_text := {| to_type := of_string "mrkdwn"; to_text := chunk |} |}.

Definition chunk_of (b : block) : str := to_text (blk_text b).

(** The variables the [while] loop updates. *)
Record split_state := { st_text : str; st_blocks : list block }.

(** The candidate [text[:max_len]] and the chunk the iteration emits. *)
Definition candidate (text : str) (max_len : Z) : str := slice_to text max_len.

Definition emitted_chunk (text : str) (max_len : Z) : str :=
  let chunk := candidate text max_len in
  let last_newline := rfind chunk NL in
  if 0 <? last_newline then slice_to chunk last_newline else chunk.

(** One pass through the body of the loop. *)
Definition split_body (max_len : Z) (st : split_state) : split_state :=
  let chunk := emitted_chunk (st_text st) max_len in
  {| st_text := lstrip_char (slice_from (st_text st) (len chunk)) NL;
     st_blocks := st_blocks st ++ [section_block chunk] |}.

(** [while text: ...; return blocks].  [None] when the fuel runs out before
    the text is empty. *)
Fixpoint split_loop (fuel : nat) (max_len : Z) (st : split_state)
  : option (list block) :=
  match fuel with
  | O => None
  | S fuel' =>
      match st_text st with
      | [] => Some (st_blocks st)
      | _ :: _ => split_loop fuel' max_len (split_body max_len st)
      end
  end.

(** The state after at most [n] iterations (the loop stops early once the
    text is empty). *)
Fixpoint split_steps (n : nat) (max_len : Z) (st : split_state) : split_state :=
  match n with
  | O => st
  | S n' =>
      match st_text st with
      | [] => st
      | _ :: _ => split_steps n' max_len (split_body max_len st)
      end
  end.

Definition split_init (text : str) : split_state :=
  {| st_text := text; st_blocks := [] |}.

(** [split_text_for_blocks(text, max_len)].  Each productive iteration
    removes at least one character, so [length text] iterations and one
    last test are enough whenever the loop exits at all. *)
Definition split_text_for_blocks (text : str) (max_len : Z)
  : option (list block) :=
  split_loop (S (length text)) max_len (split_init text).

Definition default_max_len : Z := 2900.

Definition chunks (bs : list block) : list str := map chunk_of bs.

Definition chunks_bounded (L : Z) (bs : list block) : Prop :=
  Forall (fun b => len (chunk_of b) <= L) bs.

Definition non_whitespace (s : str) : str :=
  filter (fun c => negb (isspace c)) s.

(** ** Values decoded from JSON, dictionaries and exceptions *)

#[warnings="-register-all"]
Inductive value :=
| VNone
| VBool (b : bool)
| VInt (z : Z)
| VStr (s : str)
| VList (items : list value)
| VDict (fields : list (str * value)).

(** Truth value of an object, as [or], [not] and [if] test it. *)
Definition truthy (v : value) : bool :=
  match v with
  | VNone => false
  | VBool b => b
  | VInt z => negb (z =? 0)
  | VStr s => match s with [] => false | _ => true end
  | VList l => match l with [] => false | _ => true end
  | VDict d => match d with [] => false | _ => true end
  end.

(** [a or b] *)
Definition py_or (a b : value) : value := if truthy a then a else b.

(** A dictionary keyed by strings, as an association list. *)
Fixpoint lookup {V} (d : list (str * V)) (k : str) : option V :=
  match d with
  | [] => None
  | (k', v) :: d' => if str_eqb k' k then Some v else lookup d' k
  end.

(** The response a [SlackApiError] carries: the data of the provider's
    answer, seen through its [error] field ([None] when the data has no such
    key), or no data at all. *)
Inductive slack_response :=
| NoData
| ErrorData (error : option str).

Inductive exn :=
| KeyError (key : str)
| AttributeError
| TypeError
| ValueError
| IndexError
| ConnectionError
| HTTPError (status : Z)
| JSONDecodeError
| OpenAIError
| SlackApiError (response : slack_response)
| SlackTransportError.

(** What running a piece of the script yields: a value, an exception
    that is propagating, or no answer within the iteration budget. *)
Inductive outcome (A : Type) :=
| Ok (a : A)
| Raise (e : exn)
| Diverge.

Arguments Ok {A} a.
Arguments Raise {A} e.
Arguments Diverge {A}.

Definition obind {A B} (m : outcome A) (k : A -> outcome B) : outcome B :=
  match m with
  | Ok a => k a
  | Raise e => Raise e
  | Diverge => Diverge
  end.

Declare Scope py_scope.
Delimit Scope py_scope with py.

Notation "'let?' x ':=' m 'in' k" := (obind m (fun x => k))
  (at level 10, x name, m at level 100, k at level 200) : py_scope.

Local Open Scope py_scope.

(** [d.get(k)] and [d.get(k, default)]; only a [dict] has the method. *)
Definition dict_get (v : value) (k : str) (default : value) : outcome value :=
  match v with
  | VDict d => Ok (match lookup d k with Some x => x | None => default end)
  | _ => Raise AttributeError
  end.

(** [s.strip()]; only a [str] has the method. *)
Definition str_strip (v : value) : outcome str :=
  match v with
  | VStr s => Ok (strip s)
  | _ => Raise AttributeError
  end.

(** The items a [list.extend(v)] appends: the elements of a list, the
    characters of a string, the keys of a dictionary. *)
Definition iterate (v : value) : outcome (list value) :=
  match v with
  | VList l => Ok l
  | VStr s => Ok (map (fun c => VStr [c]) s)
  | VDict d => Ok (map (fun kv => VStr (fst kv)) d)
  | _ => Raise TypeError
  end.

(** [len(v)] *)
Definition value_len (v : value) : outcome Z :=
  match v with
  | VList l => Ok (len l)
  | VStr s => Ok (len s)
  | VDict d => Ok (len d)
  | _ => Raise TypeError
  end.

(** ** The prompt builder: [prepare_analysis_prompt] *)

Definition prompt_intro (n : Z) : str :=
  of_string "You are a product manager assistant analyzing "
  ++ str_of_int n
  ++ of_string " pieces of product feedback from the last two weeks. "
  ++ of_string "Identify key themes, recurring problems, user emotions, and prioritized recommendations for product improvements."
  ++ [NL; NL]
  ++ of_string "Feedback summary list:" ++ [NL].

(** [note.get("content") or note.get("title") or ""]; the right operand
    of an [or] is evaluated only when the left one is falsy. *)
Definition note_content (note : value) : outcome value :=
  let? content := dict_get note (of_string "content") VNone in
  if truthy content then Ok content
  else
    let? title := dict_get note (of_string "title") VNone in
    Ok (py_or title (VStr [])).

(** The body of the [for] loop: the line appended to [summaries]. *)
Definition summary_line (note : value) : outcome str :=
  let? content := note_content note in
  let? stripped := str_strip content in
  Ok (of_string "- " ++ stripped).

Fixpoint summarize (notes : list value) (summaries : list str)
  : outcome (list str) :=
  match notes with
  | [] => Ok summaries
  | note :: rest =>
      let? line := summary_line note in
      summarize rest (summaries ++ [line])
  end.

Definition prepare_analysis_prompt (notes : list value) : outcome str :=
  let intro := prompt_intro (len notes) in
  let? summaries := summarize notes [] in
  Ok (intro ++ join [NL] summaries).

(** *** The builder as the specification words it *)

(** The text held by a field that is free text, empty or absent. *)
Definition field_text (note : value) (k : str) : str :=
  match note with
  | VDict d => match lookup d k with Some (VStr s) => s | _ => [] end
  | _ => []
  end.

(** "content if non-empty, else title, else empty string" *)
Definition spec_selected (note : value) : str :=
  match field_text note (of_string "content") with
  | [] => field_text note (of_string "title")
  | content => content
  end.

(** "trims surrounding whitespace; renders as a "- " prefixed line" *)
Definition spec_line (note : value) : str :=
  of_string "- " ++ strip (spec_selected note).

(** The number a text of decimal digits denotes; [None] for a text that
    is empty or holds anything but digits. *)
Fixpoint digits_value (s : str) (acc : N) : option N :=
  match s with
  | [] => Some acc
  | c :: s' =>
      if ((48 <=? c) && (c <=? 57))%N
      then digits_value s' (10 * acc + (c - 48))%N
      else None
  end.

Definition decimal_value (s : str) : option N :=
  match s with
  | [] => None
  | _ :: _ => digits_value s 0%N
  end.

(** "a fixed introductory sentence that states the note count", the count
    being written as [count_text] *)
Definition spec_intro (count_text : str) : str :=
  of_string "You are a product manager assistant analyzing "
  ++ count_text
  ++ of_string " pieces of product feedback from the last two weeks. Identify key themes, recurring problems, user emotions, and prioritized recommendations for product improvements."
  ++ [NL; NL]
  ++ of_string "Feedback summary list:" ++ [NL].

(** "joins all lines under a fixed introductory sentence that states the
    note count" *)
Definition spec_prompt (notes : list value) : str :=
  spec_intro (str_of_int (len notes)) ++ join [NL] (map spec_line notes).

(** A field is textual when it is absent, [None] or a string. *)
Definition textual (o : option value) : bool :=
  match o with
  | None | Some VNone | Some (VStr _) => true
  | _ => false
  end.

(** A feedback note: a record whose [content] and [title] are textual. *)
Definition is_note (v : value) : bool :=
  match v with
  | VDict d =>
      textual (lookup d (of_string "content"))
      && textual (lookup d (of_string "title"))
  | _ => false
  end.

(** Both fields empty or absent. *)
Definition blank (o : option value) : bool :=
  match o with
  | None | Some VNone | Some (VStr []) => true
  | _ => false
  end.

Definition is_blank_note (v : value) : bool :=
  match v with
  | VDict d =>
      blank (lookup d (of_string "content"))
      && blank (lookup d (of_string "title"))
  | _ => false
  end.

(** ** The outside world: configuration, services and the call log *)

(** [os.environ] after [load_dotenv()]. *)
Definition environ := list (str * str).

Record config := {
  SLACK_BOT_TOKEN : str;
  PRODUCTBOARD_API_TOKEN : str;
  PRODUCT_TEAM_CHANNEL : option str;
  OPENAI_API_KEY : str
}.

Definition PRODUCTBOARD_API_NOTES_URL : str :=
  of_string "https://api.productboard.com/notes".
Definition PRODUCTBOARD_API_VERSION : str := of_string "1".

(** [os.environ[key]] *)
Definition environ_item (env : environ) (key : str) : outcome str :=
  match lookup env key with
  | Some v => Ok v
  | None => Raise (KeyError key)
  end.

(** [os.environ.get(key)] *)
Definition environ_get (env : environ) (key : str) : option str :=
  lookup env key.

(** A [requests.get] call: the URL, the headers and the query parameters. *)
Record request := {
  req_url : str;
  req_headers : list (str * str);
  pageLimit : Z;
  pageOffset : Z;
  last : str
}.

(** What comes back: no response at all, or a status and a body that may
    or may not decode as JSON. *)
Inductive http_result :=
| NoResponse
| Responded (status : Z) (body : option value).

Inductive completion_result :=
| CompletionFailed
| Choices (contents : list str).

Inductive slack_result :=
| Posted
| Rejected (response : slack_response)
| Unreachable.

(** The three providers.  The feedback API sees how many requests came
    before, so that a scripted sequence of pages can be served.
    [openai_client key] is the exception with which the completion client
    refuses to be built around [key], if it does. *)
Record services := {
  feedback_api : nat -> request -> http_result;
  completion_api : str -> str -> str -> completion_result;
  slack_api : str -> option str -> list block -> slack_result;
  openai_client : str -> option exn
}.

(** [OpenAI(api_key=key)] *)
Definition new_openai_client (svc : services) (key : str) : outcome unit :=
  match openai_client svc key with
  | Some e => Raise e
  | None => Ok tt
  end.

(** The module-level assignments, in the order the interpreter runs them.
    [WebClient(token=...)] only stores the token it is given; building the
    clients sends nothing. *)
Definition startup (svc : services) (env : environ) : outcome config :=
  let? slack_bot_token := environ_item env (of_string "SLACK_BOT_TOKEN") in
  let? productboard_api_token :=
    environ_item env (of_string "PRODUCTBOARD_API_TOKEN") in
  let product_team_channel :=
    environ_get env (of_string "PRODUCT_TEAM_CHANNEL") in
  let? openai_api_key := environ_item env (of_string "OPENAI_API_KEY") in
  let? openai_client := new_openai_client svc openai_api_key in
  Ok {| SLACK_BOT_TOKEN := slack_bot_token;
        PRODUCTBOARD_API_TOKEN := productboard_api_token;
        PRODUCT_TEAM_CHANNEL := product_team_channel;
        OPENAI_API_KEY := openai_api_key |}.

Inductive level := INFO | WARNING | ERROR.

Inductive event :=
| EGet (req : request)
| EComplete (model prompt : str)
| EPost (channel : option str) (blocks : list block)
| ELog (lvl : level) (msg : str).

Definition trace := list event.

Definition requests_of (tr : trace) : list request :=
  flat_map (fun e => match e with EGet r => [r] | _ => [] end) tr.

Definition is_network_call (e : event) : bool :=
  match e with
  | EGet _ | EComplete _ _ | EPost _ _ => true
  | ELog _ _ => false
  end.

Definition is_downstream_call (e : event) : bool :=
  match e with
  | EComplete _ _ | EPost _ _ => true
  | _ => false
  end.

(** ** A state-and-exception monad over the call log *)

Definition M (A : Type) : Type := trace -> outcome A * trace.

Definition ret {A} (a : A) : M A := fun tr => (Ok a, tr).

Definition bind {A B} (m : M A) (k : A -> M B) : M B :=
  fun tr =>
    match m tr with
    | (Ok a, tr') => k a tr'
    | (Raise e, tr') => (Raise e, tr')
    | (Diverge, tr') => (Diverge, tr')
    end.

Definition lift {A} (o : outcome A) : M A := fun tr => (o, tr).

Definition emit (e : event) : M unit := fun tr => (Ok tt, tr ++ [e]).

(** [try: m except <handled> as e: handler e] *)
Definition try_except {A} (m : M A) (handler : exn -> option (M A)) : M A :=
  fun tr =>
    match m tr with
    | (Raise e, tr') =>
        match handler e with
        | Some h => h tr'
        | None => (Raise e, tr')
        end
    | r => r
    end.

Notation "x <- m ;; k" := (bind m (fun x => k))
  (at level 100, m at next level, right associativity) : py_scope.
Notation "m ;; k" := (bind m (fun _ => k))
  (at level 100, right associativity) : py_scope.

Definition log (lvl : level) (msg : str) : M unit := emit (ELog lvl msg).

(** ** The components that talk to the providers *)

Section Run.

Variable cfg : config.
Variable svc : services.

(** [requests.get(url, headers=.., params=..)] *)
Definition requests_get (req : request) : M (Z * option value) :=
  fun tr =>
    match feedback_api svc (length (requests_of tr)) req with
    | NoResponse => (Raise ConnectionError, tr ++ [EGet req])
    | Responded status body => (Ok (status, body), tr ++ [EGet req])
    end.

(** [response.raise_for_status()] *)
Definition raise_for_status (response : Z * option value) : M unit :=
  let status := fst response in
  if (400 <=? status) && (status <? 600) then lift (Raise (HTTPError status))
  else ret tt.

(** [response.json()] *)
Definition response_json (response : Z * option value) : M value :=
  match snd response with
  | Some v => ret v
  | None => lift (Raise JSONDecodeError)
  end.

Definition page_limit : Z := 100.

Definition fetch_headers : list (str * str) :=
  [ (of_string "Authorization",
     of_string "Bearer " ++ PRODUCTBOARD_API_TOKEN cfg);
    (of_string "Content-Type", of_string "application/json");
    (of_string "X-Version", PRODUCTBOARD_API_VERSION) ].

Definition page_request (last_param : str) (page_offset : Z) : request :=
  {| req_url := PRODUCTBOARD_API_NOTES_URL;
     req_headers := fetch_headers;
     pageLimit := page_limit;
     pageOffset := page_offset;
     last := last_param |}.

(** The [while True] loop of [fetch_feedback_notes]; it has no bound of
    its own, so the model takes an iteration budget. *)
Fixpoint fetch_loop (fuel : nat) (last_param : str) (page_offset : Z)
    (notes : list value) : M (list value) :=
  match fuel with
  | O => lift Diverge
  | S fuel' =>
      response <- requests_get (page_request last_param page_offset) ;;
      raise_for_status response ;;
      body <- response_json response ;;
      batch <- lift (dict_get body (of_string "data") (VList [])) ;;
      items <- lift (iterate batch) ;;
      let notes := notes ++ items in
      n <- lift (value_len batch) ;;
      log INFO (of_string "Fetched " ++ str_of_int n
                ++ of_string " notes (offset=" ++ str_of_int page_offset
                ++ of_string ")") ;;
      if n <? page_limit then ret notes
      else fetch_loop fuel' last_param (page_offset + page_limit) notes
  end.

Definition fetch_feedback_notes (fuel : nat) (days : Z) : M (list value) :=
  let last_param := str_of_int days ++ of_string "d" in
  notes <- fetch_loop fuel last_param 0 [] ;;
  log INFO (of_string "Total notes fetched for last " ++ str_of_int days
            ++ of_string " days: " ++ str_of_int (len notes)) ;;
  ret notes.

(** [openai_client.chat.completions.create(model=.., messages=[user prompt])] *)
Definition chat_completions_create (model prompt : str) : M (list str) :=
  fun tr =>
    match completion_api svc (OPENAI_API_KEY cfg) model prompt with
    | CompletionFailed => (Raise OpenAIError, tr ++ [EComplete model prompt])
    | Choices cs => (Ok cs, tr ++ [EComplete model prompt])
    end.

Definition analyze_trends_with_gpt (notes : list value) : M str :=
  prompt <- lift (prepare_analysis_prompt notes) ;;
  log INFO (of_string "Sending batch analysis prompt to GPT...") ;;
  choices <- chat_completions_create (of_string "gpt-4o") prompt ;;
  analysis <- lift (match choices with
                    | c :: _ => Ok c
                    | [] => Raise IndexError
                    end) ;;
  log INFO (of_string "Received trend analysis from GPT.") ;;
  ret analysis.

(** [client.chat_postMessage(channel=.., blocks=..)] *)
Definition chat_postMessage (channel : option str) (blocks : list block)
  : M unit :=
  fun tr =>
    match slack_api svc (SLACK_BOT_TOKEN cfg) channel blocks with
    | Posted => (Ok tt, tr ++ [EPost channel blocks])
    | Rejected response =>
        (Raise (SlackApiError response), tr ++ [EPost channel blocks])
    | Unreachable => (Raise SlackTransportError, tr ++ [EPost channel blocks])
    end.

(** How an f-string renders the channel, which may be [None]. *)
Definition str_of_channel (channel : option str) : str :=
  match channel with
  | Some c => c
  | None => of_string "None"
  end.

(** [e.response['error']]: the item of the response's data, [None] when
    the data has no such key; a response without data refuses the access. *)
Definition response_error (response : slack_response) : outcome (option str) :=
  match response with
  | NoData => Raise ValueError
  | ErrorData error => Ok error
  end.

(** How an f-string renders a string that may be [None]. *)
Definition str_of_optional (o : option str) : str :=
  match o with
  | Some s => s
  | None => of_string "None"
  end.

Definition post_analysis_to_slack (channel_id : option str)
    (analysis_text : str) : M unit :=
  blocks <- lift (match split_text_for_blocks analysis_text default_max_len with
                  | Some bs => Ok bs
                  | None => Diverge
                  end) ;;
  try_except
    (chat_postMessage channel_id blocks ;;
     log INFO (of_string "Posted formatted trend analysis to Slack channel "
               ++ str_of_channel channel_id))
    (fun e =>
       match e with
       | SlackApiError response =>
           Some (error <- lift (response_error response) ;;
                 log ERROR (of_string "Failed to post to Slack: "
                            ++ str_of_optional error))
       | _ => None
       end).

Definition main (fuel : nat) : M unit :=
  notes <- fetch_feedback_notes fuel 14 ;;
  if negb (truthy (VList notes)) then
    log WARNING (of_string "No feedback notes found for analysis. Exiting.")
  else
    analysis <- analyze_trends_with_gpt notes ;;
    post_analysis_to_slack (PRODUCT_TEAM_CHANNEL cfg) analysis.

End Run.

(** The whole script: the module-level configuration, then [main()]. *)
Definition program (env : environ) (svc : services) (fuel : nat)
  : outcome unit * trace :=
  match startup svc env with
  | Ok cfg => main cfg svc fuel []
  | Raise e => (Raise e, [])
  | Diverge => (Diverge, [])
  end.

(** A run exits with status 0 unless an exception reaches the top. *)
Definition exits_successfully (r : outcome unit * trace) : Prop :=
  fst r = Ok tt.

(** ** Vocabulary of the statements *)

(** The credentials read with [os.environ[...]]. *)
Definition required_keys : list str :=
  [ of_string "SLACK_BOT_TOKEN";
    of_string "PRODUCTBOARD_API_TOKEN";
    of_string "OPENAI_API_KEY" ].

(** The feedback API answers its [i]-th request, when that request is
    [req], with a success status and a JSON object whose [data] is [page]. *)
Definition serves (svc : services) (i : nat) (req : request)
    (page : list value) : Prop :=
  exists status d,
    feedback_api svc i req = Responded status (Some (VDict d))
    /\ (400 <=? status) && (status <? 600) = false
    /\ lookup d (of_string "data") = Some (VList page).

(** The request the fetcher is expected to send for page number [j]. *)
Definition nth_request (cfg : config) (days : Z) (j : nat) : request :=
  page_request cfg (str_of_int days ++ of_string "d")
    (page_limit * Z.of_nat j).

(** What one successful page adds to the log: the request and the progress
    line. *)
Definition page_events (cfg : config) (last_param : str) (page_offset : Z)
    (page : list value) : trace :=
  [ EGet (page_request cfg last_param page_offset);
    ELog INFO (of_string "Fetched " ++ str_of_int (len page)
               ++ of_string " notes (offset=" ++ str_of_int page_offset
               ++ of_string ")") ].

(** A computation that only appends to the log, and appends neither a
    completion call nor a Slack post. *)
Definition quiet {A} (m : M A) : Prop :=
  forall tr,
    exists new,
      snd (m tr) = tr ++ new
      /\ Forall (fun e => is_downstream_call e = false) new.

Definition no_notes_warning : event :=
  ELog WARNING (of_string "No feedback notes found for analysis. Exiting.").

Definition post_failure_log (detail : str) : event :=
  ELog ERROR (of_string "Failed to post to Slack: " ++ detail).

(** ** Sample inputs *)

Module Sample.

Definition cfg : config :=
  {| SLACK_BOT_TOKEN := of_string "xoxb-1";
     PRODUCTBOARD_API_TOKEN := of_string "pb-1";
     PRODUCT_TEAM_CHANNEL := Some (of_string "C042");
     OPENAI_API_KEY := of_string "sk-1" |}.

(** An environment with the three credentials and no channel. *)
Definition env_without_channel : environ :=
  [ (of_string "SLACK_BOT_TOKEN", of_string "xoxb-1");
    (of_string "PRODUCTBOARD_API_TOKEN", of_string "pb-1");
    (of_string "OPENAI_API_KEY", of_string "sk-1") ].

(** An environment with the channel and without the Slack token. *)
Definition env_without_token : environ :=
  [ (of_string "PRODUCTBOARD_API_TOKEN", of_string "pb-1");
    (of_string "PRODUCT_TEAM_CHANNEL", of_string "C042");
    (of_string "OPENAI_API_KEY", of_string "sk-1") ].

(** A completion client that refuses an empty key and takes any other. *)
Definition key_check (key : str) : option exn :=
  match key with
  | [] => Some OpenAIError
  | _ :: _ => None
  end.

(** An environment with an empty completion key. *)
Definition env_with_empty_key : environ :=
  [ (of_string "SLACK_BOT_TOKEN", of_string "xoxb-1");
    (of_string "PRODUCTBOARD_API_TOKEN", of_string "pb-1");
    (of_string "PRODUCT_TEAM_CHANNEL", of_string "C042");
    (of_string "OPENAI_API_KEY", []) ].

Definition note_numbered (k : nat) : value :=
  VDict [ (of_string "id", VInt (Z.of_nat k));
          (of_string "content", VStr (of_string "slow export")) ].

(** Notes numbered [from], [from + 1], ..., [count] of them. *)
Definition page (from count : nat) : list value :=
  map note_numbered (seq from count).

Definition json_page (p : list value) : http_result :=
  Responded 200 (Some (VDict [ (of_string "data", VList p) ])).

(** A feedback API that serves the scripted pages in order, then empty
    pages; a completion service with one fixed answer; a Slack that
    rejects every post. *)
Definition scripted (pages : list (list value)) : services :=
  {| feedback_api := fun i _ => json_page (nth i pages []);
     completion_api := fun _ _ _ => Choices [ of_string "Theme: exports" ];
     slack_api := fun _ _ _ =>
       Rejected (ErrorData (Some (of_string "channel_not_found")));
     openai_client := key_check |}.

Definition three_pages : list (list value) :=
  [ page 0 100; page 100 100; page 200 37 ].

Definition notes : list value :=
  [ VDict [ (of_string "content", VStr (of_string "  crashes on save "));
            (of_string "title", VStr (of_string "Crash")) ];
    VDict [ (of_string "content", VStr []);
            (of_string "title", VStr (of_string " Login loop ")) ];
    VDict [ (of_string "content", VNone); (of_string "title", VStr []) ];
    VDict [] ].

(** The scripted pages, then one fixed answer. *)
Definition then_answer (pages : list (list value)) (r : http_result)
  : services :=
  {| feedback_api := fun i _ =>
       match nth_error pages i with
       | Some p => json_page p
       | None => r
       end;
     completion_api := fun _ _ _ => Choices [ of_string "Theme: exports" ];
     slack_api := fun _ _ _ => Posted;
     openai_client := key_check |}.

(** The scripted pages with a fixed answer from the completion service and
    from Slack. *)
Definition wired (pages : list (list value)) (completion : completion_result)
    (slack : slack_result) : services :=
  {| feedback_api := fun i _ => json_page (nth i pages []);
     completion_api := fun _ _ _ => completion;
     slack_api := fun _ _ _ => slack;
     openai_client := key_check |}.

End Sample.

(** ** Vocabulary of the further properties *)

(** The characters of [s] other than newlines, in order. *)
Definition non_newline (s : str) : str :=
  filter (fun c => negb (N.eqb c NL)) s.

(** The shape every block of the chunker has. *)
Definition is_section_block (b : block) : Prop :=
  blk_type b = of_string "section"
  /\ to_type (blk_text b) = of_string "mrkdwn".

(** What a run of successful pages adds to the log, the first page being
    requested at [page_offset]. *)
Fixpoint pages_events (cfg : config) (last_param : str) (page_offset : Z)
    (pages : list (list value)) : trace :=
  match pages with
  | [] => []
  | p :: ps =>
      page_events cfg last_param page_offset p
      ++ pages_events cfg last_param (page_offset + page_limit) ps
  end.

(** The closing line of [fetch_feedback_notes]. *)
Definition total_log (days : Z) (notes : list value) : event :=
  ELog INFO (of_string "Total notes fetched for last " ++ str_of_int days
             ++ of_string " days: " ++ str_of_int (len notes)).

Definition lookback (days : Z) : str := str_of_int days ++ of_string "d".

(** The feedback API serves the pages of [pages], in order, to the first
    requests of the fetcher. *)
Definition serves_pages (cfg : config) (svc : services) (days : Z)
    (pages : list (list value)) : Prop :=
  forall j page,
    nth_error pages j = Some page ->
    serves svc j (nth_request cfg days j) page.

(** [d.get(k)] on the fields of a dictionary. *)
Definition field (d : list (str * value)) (k : str) : value :=
  match lookup d k with
  | Some v => v
  | None => VNone
  end.

(** The note is a dictionary and the value of
    [note.get("content") or note.get("title") or ""] is a string. *)
Definition selects_text (note : value) : bool :=
  match note with
  | VDict d =>
      match py_or (py_or (field d (of_string "content"))
                         (field d (of_string "title"))) (VStr []) with
      | VStr _ => true
      | _ => false
      end
  | _ => false
  end.

Definition completions_of (tr : trace) : list (str * str) :=
  flat_map (fun e => match e with EComplete m p => [(m, p)] | _ => [] end) tr.

Definition posts_of (tr : trace) : list (option str * list block) :=
  flat_map (fun e => match e with EPost c bs => [(c, bs)] | _ => [] end) tr.

Definition sending_log : event :=
  ELog INFO (of_string "Sending batch analysis prompt to GPT...").

Definition received_log : event :=
  ELog INFO (of_string "Received trend analysis from GPT.").

Definition posted_log (channel : option str) : event :=
  ELog INFO (of_string "Posted formatted trend analysis to Slack channel "
             ++ str_of_channel channel).

Definition gpt_model : str := of_string "gpt-4o".

(** * Properties *)

(** ** Slices, [rfind] and [lstrip] *)

Lemma len_nonneg {A} (s : list A) : 0 <= len s.
Proof. unfold len. lia. Qed.

Lemma slice_to_firstn {A} (s : list A) (n : Z) :
  exists k, slice_to s n = firstn k s.
Proof.
  unfold slice_to. destruct (n <? 0); eexists; reflexivity.
Qed.

Lemma slice_to_nonneg {A} (s : list A) (n : Z) :
  0 <= n -> slice_to s n = firstn (Z.to_nat n) s.
Proof.
  intros Hn. unfold slice_to.
  destruct (Z.ltb_spec n 0); [lia | reflexivity].
Qed.

Lemma slice_to_len_le {A} (s : list A) (n : Z) :
  0 <= n -> len (slice_to s n) <= n.
Proof.
  intros Hn. rewrite slice_to_nonneg by assumption.
  unfold len. rewrite length_firstn. lia.
Qed.

Lemma slice_from_len {A} (s t : list A) :
  slice_from s (len t) = skipn (length t) s.
Proof.
  unfold slice_from, len.
  destruct (Z.ltb_spec (Z.of_nat (length t)) 0); [lia |].
  now rewrite Nat2Z.id.
Qed.

Lemma firstn_split_self {A} (k : nat) (s : list A) :
  firstn k s ++ skipn (length (firstn k s)) s = s.
Proof.
  rewrite length_firstn.
  destruct (Nat.le_ge_cases k (length s)) as [Hk | Hk].
  - rewrite Nat.min_l by assumption. apply firstn_skipn.
  - rewrite Nat.min_r by assumption.
    rewrite firstn_all2, skipn_all by lia. now rewrite app_nil_r.
Qed.

Lemma In_firstn {A} (x : A) (n : nat) (s : list A) :
  In x (firstn n s) -> In x s.
Proof.
  intros Hin. rewrite <- (firstn_skipn n s). apply in_or_app. now left.
Qed.

(** [rfind] returns the start value when the needle is absent, and the
    index of its last occurrence otherwise. *)
Lemma rfind_from_spec (s : str) (c : char) :
  forall i last,
    (rfind_from s c i last = last /\ ~ In c s)
    \/ exists k,
         rfind_from s c i last = i + Z.of_nat k
         /\ nth_error s k = Some c
         /\ forall m, (k < m)%nat -> nth_error s m <> Some c.
Proof.
  induction s as [| x s IH]; intros i last; simpl.
  - left. auto.
  - destruct (IH (i + 1) (if (x =? c)%N then i else last))
      as [[Hr Hnot] | [k [Hr [Hk Hlast]]]].
    + destruct (N.eqb_spec x c) as [-> | Hxc].
      * right. exists 0%nat. rewrite Hr. repeat split; [lia |].
        intros [| m] Hm; [lia |]. simpl. intros Hin.
        apply Hnot. eapply nth_error_In; eassumption.
      * left. split; [assumption |]. intros [Hx | Hin]; auto.
    + right. exists (S k). rewrite Hr. repeat split; [lia | assumption |].
      intros [| m] Hm; [lia |]. simpl. apply Hlast. lia.
Qed.

Lemma rfind_spec (s : str) (c : char) :
  (rfind s c = -1 /\ ~ In c s)
  \/ exists k,
       rfind s c = Z.of_nat k
       /\ nth_error s k = Some c
       /\ forall m, (k < m)%nat -> nth_error s m <> Some c.
Proof.
  unfold rfind. destruct (rfind_from_spec s c 0 (-1)) as [H | [k [Hr H]]].
  - left. assumption.
  - right. exists k. rewrite Hr. split; [lia | assumption].
Qed.

Lemma rfind_lt_len (s : str) (c : char) : rfind s c < len s.
Proof.
  destruct (rfind_spec s c) as [[Hr _] | [k [Hr [Hk _]]]]; rewrite Hr.
  - pose proof (len_nonneg s). lia.
  - assert (k < length s)%nat by (apply nth_error_Some; congruence).
    unfold len. lia.
Qed.

Lemma lstrip_char_length (s : str) (c : char) :
  (length (lstrip_char s c) <= length s)%nat.
Proof.
  induction s as [| x s IH]; simpl; [lia |].
  destruct (x =? c)%N; simpl; lia.
Qed.

Lemma isspace_NL : isspace NL = true.
Proof. reflexivity. Qed.

Lemma non_whitespace_app (a b : str) :
  non_whitespace (a ++ b) = non_whitespace a ++ non_whitespace b.
Proof. apply filter_app. Qed.

Lemma non_whitespace_lstrip_NL (s : str) :
  non_whitespace (lstrip_char s NL) = non_whitespace s.
Proof.
  induction s as [| x s IH]; simpl; [reflexivity |].
  destruct (N.eqb_spec x NL) as [-> | Hx]; [| reflexivity].
  rewrite IH. symmetry. apply (non_whitespace_app [NL] s).
Qed.

Lemma non_whitespace_join_NL (l : list str) :
  non_whitespace (join [NL] l) = non_whitespace (concat l).
Proof.
  induction l as [| a l IH]; [reflexivity |].
  destruct l as [| b l].
  - simpl. now rewrite app_nil_r.
  - change (join [NL] (a :: b :: l)) with (a ++ [NL] ++ join [NL] (b :: l)).
    change (concat (a :: b :: l)) with (a ++ concat (b :: l)).
    now rewrite !non_whitespace_app, IH.
Qed.

(** ** One iteration of the chunker *)

Lemma emitted_chunk_firstn (text : str) (L : Z) :
  exists k, emitted_chunk text L = firstn k text.
Proof.
  unfold emitted_chunk, candidate.
  destruct (slice_to_firstn text L) as [a Ha]. rewrite Ha.
  destruct (0 <? rfind (firstn a text) NL).
  - destruct (slice_to_firstn (firstn a text) (rfind (firstn a text) NL))
      as [b Hb].
    rewrite Hb, firstn_firstn. eexists; reflexivity.
  - eexists; reflexivity.
Qed.

Lemma emitted_chunk_len_le_candidate (text : str) (L : Z) :
  len (emitted_chunk text L) <= len (candidate text L).
Proof.
  unfold emitted_chunk.
  destruct (0 <? rfind (candidate text L) NL); [| lia].
  destruct (slice_to_firstn (candidate text L) (rfind (candidate text L) NL))
    as [b ->].
  unfold len. rewrite length_firstn. lia.
Qed.

Lemma emitted_chunk_len_le (text : str) (L : Z) :
  0 <= L -> len (emitted_chunk text L) <= L.
Proof.
  intros HL. pose proof (emitted_chunk_len_le_candidate text L).
  pose proof (slice_to_len_le text L HL). unfold candidate in *. lia.
Qed.

Lemma emitted_chunk_nonempty (text : str) (L : Z) :
  1 <= L -> text <> [] -> (0 < length (emitted_chunk text L))%nat.
Proof.
  intros HL Htext. unfold emitted_chunk.
  destruct (Z.ltb_spec 0 (rfind (candidate text L) NL)) as [Hpos | Hneg].
  - pose proof (rfind_lt_len (candidate text L) NL) as Hlt.
    rewrite slice_to_nonneg by lia. rewrite length_firstn.
    unfold len in Hlt. lia.
  - unfold candidate. rewrite slice_to_nonneg by lia. rewrite length_firstn.
    destruct text; [congruence | simpl; lia].
Qed.

Lemma split_body_text (L : Z) (st : split_state) :
  st_text (split_body L st)
  = lstrip_char (skipn (length (emitted_chunk (st_text st) L)) (st_text st)) NL.
Proof. unfold split_body. simpl. now rewrite slice_from_len. Qed.

Lemma split_body_decreases (L : Z) (st : split_state) :
  1 <= L -> st_text st <> [] ->
  (length (st_text (split_body L st)) < length (st_text st))%nat.
Proof.
  intros HL Htext. rewrite split_body_text.
  pose proof (emitted_chunk_nonempty (st_text st) L HL Htext) as Hpos.
  pose proof (lstrip_char_length
                (skipn (length (emitted_chunk (st_text st) L)) (st_text st)) NL)
    as Hstrip.
  rewrite length_skipn in Hstrip.
  assert (0 < length (st_text st))%nat
    by (destruct (st_text st); [congruence | simpl; lia]).
  lia.
Qed.

Lemma split_body_content (L : Z) (st : split_state) :
  non_whitespace (emitted_chunk (st_text st) L)
  ++ non_whitespace (st_text (split_body L st))
  = non_whitespace (st_text st).
Proof.
  rewrite split_body_text, non_whitespace_lstrip_NL, <- non_whitespace_app.
  destruct (emitted_chunk_firstn (st_text st) L) as [k ->].
  now rewrite firstn_split_self.
Qed.

(** ** The loop: invariants and termination *)

Lemma split_loop_invariant (P : split_state -> Prop) (L : Z) :
  (forall st, st_text st <> [] -> P st -> P (split_body L st)) ->
  forall fuel st bs,
    P st -> split_loop fuel L st = Some bs ->
    exists st', P st' /\ st_text st' = [] /\ st_blocks st' = bs.
Proof.
  intros Hstep. induction fuel as [| fuel IH]; intros st bs HP Hrun.
  - discriminate.
  - simpl in Hrun. destruct (st_text st) eqn:Htext.
    + injection Hrun as <-. exists st. auto.
    + apply (IH (split_body L st)); [| assumption].
      apply Hstep; [congruence | assumption].
Qed.

Lemma split_steps_invariant (P : split_state -> Prop) (L : Z) :
  (forall st, st_text st <> [] -> P st -> P (split_body L st)) ->
  forall n st, P st -> P (split_steps n L st).
Proof.
  intros Hstep. induction n as [| n IH]; intros st HP; simpl.
  - assumption.
  - destruct (st_text st) eqn:Htext; [assumption |].
    apply IH, Hstep; [congruence | assumption].
Qed.

Lemma split_loop_terminates (L : Z) :
  1 <= L ->
  forall fuel st,
    (length (st_text st) < fuel)%nat ->
    exists bs, split_loop fuel L st = Some bs.
Proof.
  intros HL. induction fuel as [| fuel IH]; intros st Hfuel; [lia |].
  simpl. destruct (st_text st) eqn:Htext.
  - eexists; reflexivity.
  - apply IH.
    assert (st_text st <> []) as Hne by congruence.
    pose proof (split_body_decreases L st HL Hne).
    rewrite <- Htext in Hfuel. lia.
Qed.

Lemma split_text_for_blocks_total (text : str) (L : Z) :
  1 <= L -> exists bs, split_text_for_blocks text L = Some bs.
Proof.
  intros HL. apply split_loop_terminates; [assumption | simpl; lia].
Qed.

Lemma split_loop_extends (L : Z) (fuel : nat) (st : split_state)
    (bs : list block) :
  split_loop fuel L st = Some bs -> exists rest, bs = st_blocks st ++ rest.
Proof.
  intros Hrun.
  destruct (split_loop_invariant
              (fun st' => exists rest, st_blocks st' = st_blocks st ++ rest) L)
    with (fuel := fuel) (st := st) (bs := bs)
    as [st' [[rest Hrest] [_ Hbs]]].
  - intros st0 _ [rest Hrest]. exists (rest ++ [section_block
                                         (emitted_chunk (st_text st0) L)]).
    unfold split_body. simpl. rewrite Hrest. now rewrite app_assoc.
  - exists []. now rewrite app_nil_r.
  - assumption.
  - exists rest. congruence.
Qed.

(** The loop runs some [n] iterations, no more than the text has
    characters, and [n] is the first moment the text is empty. *)
Lemma split_steps_exit (L : Z) :
  1 <= L ->
  forall k st,
    (length (st_text st) <= k)%nat ->
    exists n,
      (n <= length (st_text st))%nat
      /\ st_text (split_steps n L st) = []
      /\ (forall m, (m < n)%nat -> st_text (split_steps m L st) <> [])
      /\ forall fuel, (n < fuel)%nat ->
           split_loop fuel L st = Some (st_blocks (split_steps n L st)).
Proof.
  intros HL. induction k as [| k IH]; intros st Hk.
  - exists 0%nat. simpl.
    assert (st_text st = []) as Hnil
        by (destruct (st_text st); [reflexivity | simpl in Hk; lia]).
    repeat split; [lia | assumption | lia |].
    intros [| fuel] Hfuel; [lia |]. simpl. now rewrite Hnil.
  - destruct (st_text st) eqn:Htext.
    + exists 0%nat. simpl. repeat split; [lia | assumption | lia |].
      intros [| fuel] Hfuel; [lia |]. simpl. now rewrite Htext.
    + assert (st_text st <> []) as Hne by congruence.
      pose proof (split_body_decreases L st HL Hne) as Hdec.
      rewrite Htext in Hdec.
      destruct (IH (split_body L st)) as [n [Hn [Hend [Hbefore Hloop]]]];
        [simpl in *; lia |].
      exists (S n). simpl. rewrite Htext. repeat split.
      * simpl in *. lia.
      * assumption.
      * intros [| m] Hm; simpl; [congruence |].
        rewrite Htext. apply Hbefore. lia.
      * intros [| fuel] Hfuel; [lia |]. simpl. rewrite Htext.
        apply Hloop. lia.
Qed.

Lemma rfind_only_newline (a b : str) :
  ~ In NL a -> ~ In NL b -> rfind (a ++ NL :: b) NL = len a.
Proof.
  intros Ha Hb.
  destruct (rfind_spec (a ++ NL :: b) NL) as [[_ Hnot] | [k [Hr [Hk _]]]].
  - exfalso. apply Hnot, in_elt.
  - rewrite Hr. unfold len. f_equal.
    destruct (Nat.lt_trichotomy k (length a)) as [Hlt | [Heq | Hgt]].
    + exfalso. apply Ha. rewrite nth_error_app1 in Hk by assumption.
      eapply nth_error_In; eassumption.
    + assumption.
    + exfalso. apply Hb. rewrite nth_error_app2 in Hk by lia.
      destruct (k - length a)%nat as [| j] eqn:Hj; [lia |].
      simpl in Hk. eapply nth_error_In; eassumption.
Qed.

(** With a single newline inside the candidate, away from its first
    position, the chunk is what precedes the newline. *)
Lemma emitted_chunk_single_newline (a b : str) (L : Z) :
  ~ In NL a -> ~ In NL b -> 0 < len a < L ->
  emitted_chunk (a ++ NL :: b) L = a.
Proof.
  intros Ha Hb HL. unfold emitted_chunk, candidate, len in *.
  rewrite slice_to_nonneg by lia.
  rewrite firstn_app, (firstn_all2 (n := Z.to_nat L) a) by lia.
  destruct (Z.to_nat L - length a)%nat as [| j] eqn:Hj; [lia |].
  rewrite firstn_cons.
  rewrite rfind_only_newline;
    [| assumption | intros Hin; apply Hb; eapply In_firstn; eassumption].
  unfold len.
  destruct (Z.ltb_spec 0 (Z.of_nat (length a))); [| lia].
  rewrite slice_to_nonneg by lia. rewrite Nat2Z.id.
  rewrite firstn_app, Nat.sub_diag, firstn_all. simpl. apply app_nil_r.
Qed.

(** ** The iteration budget is adequate *)

Lemma lstrip_char_same_length (s : str) (c : char) :
  length (lstrip_char s c) = length s -> lstrip_char s c = s.
Proof.
  destruct s as [| x s]; [reflexivity |]. simpl.
  destruct (x =? c)%N; [| reflexivity].
  intros Hlen. pose proof (lstrip_char_length s c). lia.
Qed.

Lemma split_body_length_le (L : Z) (st : split_state) :
  (length (st_text (split_body L st)) <= length (st_text st))%nat.
Proof.
  rewrite split_body_text.
  pose proof (lstrip_char_length
                (skipn (length (emitted_chunk (st_text st) L)) (st_text st)) NL)
    as Hstrip.
  rewrite length_skipn in Hstrip. lia.
Qed.

(** An iteration that removes no character leaves the text as it was. *)
Lemma split_body_stuck (L : Z) (st : split_state) :
  length (st_text (split_body L st)) = length (st_text st) ->
  st_text (split_body L st) = st_text st.
Proof.
  rewrite split_body_text. intros Hlen.
  pose proof (lstrip_char_length
                (skipn (length (emitted_chunk (st_text st) L)) (st_text st)) NL)
    as Hstrip.
  rewrite length_skipn in Hstrip.
  assert (skipn (length (emitted_chunk (st_text st) L)) (st_text st)
          = st_text st) as Hskip.
  { destruct (emitted_chunk_firstn (st_text st) L) as [k Hk].
    destruct (length (emitted_chunk (st_text st) L)) as [| j] eqn:Hj;
      [reflexivity |].
    rewrite Hk, length_firstn in Hj. lia. }
  rewrite Hskip in *. now apply lstrip_char_same_length.
Qed.

Lemma split_body_stuck_again (L : Z) (st : split_state) :
  st_text (split_body L st) = st_text st ->
  st_text (split_body L (split_body L st)) = st_text (split_body L st).
Proof.
  intros Hsame. rewrite split_body_text, Hsame, <- split_body_text.
  exact Hsame.
Qed.

(** From a non-empty text that an iteration leaves unchanged the loop
    never exits. *)
Lemma split_loop_stuck (L : Z) :
  forall fuel st,
    st_text st <> [] -> st_text (split_body L st) = st_text st ->
    split_loop fuel L st = None.
Proof.
  induction fuel as [| fuel IH]; intros st Hne Hsame; [reflexivity |].
  pose proof (split_body_stuck_again L st Hsame) as Hagain.
  assert (st_text (split_body L st) <> []) as Hne' by congruence.
  simpl. destruct (st_text st); [congruence |]. now apply IH.
Qed.

(** The budget of [split_text_for_blocks] cuts no run short: a run that
    exits within any budget exits within [S (length text)]. *)
Lemma split_loop_budget (L : Z) :
  forall n st fuel bs,
    (length (st_text st) <= n)%nat ->
    split_loop fuel L st = Some bs ->
    split_loop (S n) L st = Some bs.
Proof.
  induction n as [| n IH]; intros st fuel bs Hn Hrun.
  - destruct fuel as [| fuel]; [discriminate |]. simpl in *.
    destruct (st_text st); [assumption | simpl in Hn; lia].
  - destruct fuel as [| fuel]; [discriminate |].
    cbn [split_loop] in *. destruct (st_text st) eqn:Htext; [assumption |].
    rewrite <- Htext in Hn.
    apply (IH _ fuel); [| assumption].
    pose proof (split_body_length_le L st) as Hle.
    destruct (Nat.eq_dec (length (st_text (split_body L st)))
                (length (st_text st))) as [Heq | Hneq]; [| lia].
    exfalso. apply split_body_stuck in Heq.
    rewrite (split_loop_stuck L fuel (split_body L st)) in Hrun;
      [discriminate | rewrite Heq, Htext; discriminate |].
    now apply split_body_stuck_again.
Qed.

Lemma split_text_for_blocks_adequate (text : str) (L : Z) (fuel : nat)
    (bs : list block) :
  split_loop fuel L (split_init text) = Some bs ->
  split_text_for_blocks text L = Some bs.
Proof.
  intros Hrun. apply (split_loop_budget L _ _ fuel); [simpl; lia | exact Hrun].
Qed.

(** With a maximum length of 0 nothing is ever consumed: the loop does not
    exit on a text that starts with a character other than a newline. *)
Lemma split_zero_bound_diverges (fuel : nat) :
  split_loop fuel 0 (split_init (of_string "a")) = None.
Proof. apply split_loop_stuck; [discriminate | reflexivity]. Qed.

(** ** The chunker's claims *)

(** C1, as stated, fails for a negative bound: [split_text_for_blocks("\n", -1)]
    takes the candidate ["\n"[:-1]], the empty string, emits it, strips the
    newline and returns one chunk of length 0, which is above -1. *)
Lemma split_negative_bound_unbounded :
  exists bs,
    split_text_for_blocks [NL] (-1) = Some bs /\ ~ chunks_bounded (-1) bs.
Proof.
  exists [section_block []]. split; [reflexivity |].
  intros Hb. inversion Hb as [| b l Hlen _]; subst.
  unfold chunk_of, len in Hlen. simpl in Hlen. lia.
Qed.

(** C1 (amended): for every text and every maximum length L >= 0, every
    chunk the loop has emitted after any number of iterations has length at
    most L, and so has every chunk of the list the function returns; for
    L >= 1 the function does return such a list. *)
Theorem split_chunks_bounded (text : str) (L : Z) :
  0 <= L ->
  (forall n, chunks_bounded L (st_blocks (split_steps n L (split_init text))))
  /\ (forall bs, split_text_for_blocks text L = Some bs -> chunks_bounded L bs)
  /\ (1 <= L ->
      exists bs, split_text_for_blocks text L = Some bs /\ chunks_bounded L bs).
Proof.
  intros HL.
  assert (forall st, st_text st <> [] ->
            chunks_bounded L (st_blocks st) ->
            chunks_bounded L (st_blocks (split_body L st))) as Hstep.
  { intros st _ Hb. unfold split_body, chunks_bounded. simpl.
    apply Forall_app. split; [assumption |].
    constructor; [| constructor].
    unfold chunk_of. simpl. now apply emitted_chunk_len_le. }
  assert (chunks_bounded L (st_blocks (split_init text))) as Hinit
      by constructor.
  assert (forall bs, split_text_for_blocks text L = Some bs ->
                     chunks_bounded L bs) as Hret.
  { intros bs Hrun.
    destruct (split_loop_invariant _ L Hstep _ _ _ Hinit Hrun)
      as [st' [Hb [_ <-]]].
    assumption. }
  split; [| split].
  - intros n. now apply split_steps_invariant.
  - assumption.
  - intros HL1. destruct (split_text_for_blocks_total text L HL1) as [bs Hrun].
    exists bs. auto.
Qed.

Lemma split_chunks_bounded_witness :
  0 <= 3
  /\ exists bs,
       split_text_for_blocks (of_string "ab" ++ NL :: of_string "cdef") 3
       = Some bs
       /\ chunks_bounded 3 bs.
Proof.
  split; [lia |].
  apply (split_chunks_bounded (of_string "ab" ++ NL :: of_string "cdef") 3);
    lia.
Defined.

(** C2: whenever [split_text_for_blocks] returns, and it does for every
    text and every maximum length L >= 1, joining its chunks with single
    newlines gives a string with exactly the non-whitespace characters of
    the text, in the same order. *)
Theorem split_preserves_content (text : str) (L : Z) :
  (forall bs,
      split_text_for_blocks text L = Some bs ->
      non_whitespace (join [NL] (chunks bs)) = non_whitespace text)
  /\ (1 <= L ->
      exists bs,
        split_text_for_blocks text L = Some bs
        /\ non_whitespace (join [NL] (chunks bs)) = non_whitespace text).
Proof.
  assert (forall bs,
      split_text_for_blocks text L = Some bs ->
      non_whitespace (join [NL] (chunks bs)) = non_whitespace text) as Hret.
  { intros bs Hrun.
    destruct (split_loop_invariant
                (fun st => non_whitespace (concat (chunks (st_blocks st)))
                           ++ non_whitespace (st_text st)
                           = non_whitespace text) L)
      with (fuel := S (length text)) (st := split_init text) (bs := bs)
      as [st' [Hinv [Hnil <-]]].
    - intros st _ Hinv. rewrite <- Hinv, <- (split_body_content L st).
      unfold split_body at 1. unfold chunks. simpl.
      rewrite map_app, concat_app, non_whitespace_app. simpl.
      unfold chunk_of at 2. simpl.
      now rewrite app_nil_r, app_assoc.
    - reflexivity.
    - assumption.
    - rewrite Hnil, app_nil_r in Hinv.
      now rewrite non_whitespace_join_NL. }
  split; [assumption |].
  intros HL. destruct (split_text_for_blocks_total text L HL) as [bs Hrun].
  exists bs. auto.
Qed.

Lemma split_preserves_content_witness :
  exists bs,
    split_text_for_blocks
      (of_string "ab" ++ [NL; NL] ++ of_string "c d" ++ [NL]) 2
    = Some bs
    /\ chunks bs = [of_string "ab"; of_string "c "; of_string "d"]
    /\ non_whitespace (join [NL] (chunks bs)) = of_string "abcd".
Proof.
  destruct (split_preserves_content
              (of_string "ab" ++ [NL; NL] ++ of_string "c d" ++ [NL]) 2)
    as [Hret _].
  eexists. split; [reflexivity |]. split; [reflexivity |].
  rewrite (Hret _ eq_refl). reflexivity.
Defined.

(** C5: in every iteration with a maximum length L >= 0, when one of the
    first L characters of the remaining text, at a position p > 0, is a
    newline, the block appended carries the text cut at the last newline
    found among those first L characters, which lies at or after p; and for
    a 3000-character text whose only newline is at position 1500, with
    maximum length 2900, the first chunk returned is the 1500 characters
    before that newline. *)
Theorem split_breaks_at_last_newline :
  (forall (st : split_state) (L : Z) (p : nat),
      0 <= L ->
      (0 < p)%nat ->
      nth_error (firstn (Z.to_nat L) (st_text st)) p = Some NL ->
      exists q,
        (p <= q)%nat /\ (q < Z.to_nat L)%nat
        /\ nth_error (st_text st) q = Some NL
        /\ (forall m, (q < m)%nat -> (m < Z.to_nat L)%nat ->
                      nth_error (st_text st) m <> Some NL)
        /\ st_blocks (split_body L st)
           = st_blocks st ++ [section_block (firstn q (st_text st))])
  /\ (forall a b : str,
         length a = 1500%nat -> length b = 1499%nat ->
         ~ In NL a -> ~ In NL b ->
         exists rest,
           split_text_for_blocks (a ++ NL :: b) 2900
           = Some (section_block a :: rest)).
Proof.
  split.
  - intros st L p HL Hp Hnl.
    assert (candidate (st_text st) L = firstn (Z.to_nat L) (st_text st))
      as Hcand by (unfold candidate; now apply slice_to_nonneg).
    destruct (rfind_spec (candidate (st_text st) L) NL)
      as [[_ Hnot] | [k [Hr [Hk Hlast]]]].
    + exfalso. apply Hnot. rewrite Hcand. eapply nth_error_In; eassumption.
    + rewrite Hcand in Hk, Hlast.
      assert (p <= k)%nat as Hpk.
      { destruct (Nat.le_gt_cases p k) as [Hle | Hgt]; [assumption |].
        exfalso. now apply (Hlast p Hgt). }
      rewrite nth_error_firstn in Hk.
      destruct (Nat.ltb_spec k (Z.to_nat L)) as [HkL | HkL];
        [| discriminate].
      exists k. repeat split; try assumption.
      * intros m Hm HmL Hnl'. apply (Hlast m Hm).
        rewrite nth_error_firstn.
        destruct (Nat.ltb_spec m (Z.to_nat L)); [assumption | lia].
      * unfold split_body, emitted_chunk. cbn [st_blocks]. rewrite Hr.
        destruct (Z.ltb_spec 0 (Z.of_nat k)); [| lia].
        rewrite slice_to_nonneg by lia. rewrite Nat2Z.id, Hcand.
        rewrite firstn_firstn, Nat.min_l by lia. reflexivity.
  - intros a b Hla Hlb Ha Hb.
    assert (emitted_chunk (a ++ NL :: b) 2900 = a) as Hchunk.
    { apply emitted_chunk_single_newline; try assumption.
      unfold len. rewrite Hla. lia. }
    destruct (split_text_for_blocks_total (a ++ NL :: b) 2900) as [bs Hrun];
      [lia |].
    rewrite Hrun. unfold split_text_for_blocks in Hrun.
    cbn [split_loop] in Hrun.
    destruct (st_text (split_init (a ++ NL :: b))) eqn:Htext.
    { exfalso. simpl in Htext. now destruct a. }
    apply split_loop_extends in Hrun. destruct Hrun as [rest ->].
    exists rest. unfold split_body. cbn [st_blocks st_text split_init].
    now rewrite Hchunk.
Qed.

Lemma split_breaks_at_last_newline_witness :
  st_blocks
    (split_body 4
       (split_init (of_string "ab" ++ NL :: of_string "cd"
                    ++ NL :: of_string "ef")))
  = [section_block (of_string "ab")]
  /\ exists rest,
       split_text_for_blocks
         (repeat 97%N 1500 ++ NL :: repeat 98%N 1499) 2900
       = Some (section_block (repeat 97%N 1500) :: rest).
Proof.
  split.
  - destruct (proj1 split_breaks_at_last_newline
                (split_init (of_string "ab" ++ NL :: of_string "cd"
                             ++ NL :: of_string "ef")) 4 2%nat)
      as [q [Hq [HqL [Hnl [_ Hblocks]]]]]; [lia | lia | reflexivity |].
    assert (q = 2%nat) as ->.
    { change (Z.to_nat 4) with 4%nat in HqL.
      destruct q as [| [| [| [| q]]]]; try lia; try reflexivity.
      discriminate Hnl. }
    exact Hblocks.
  - apply (proj2 split_breaks_at_last_newline).
    + apply repeat_length.
    + apply repeat_length.
    + intros Hin. apply repeat_spec in Hin. discriminate.
    + intros Hin. apply repeat_spec in Hin. discriminate.
Defined.

(** C9: for every text and every maximum length L >= 1, each iteration on a
    non-empty text leaves strictly fewer characters, so the loop exits: after
    some n iterations, at most one per character, the text is empty for the
    first time, and there the function returns the blocks built so far. *)
Theorem split_terminates (text : str) (L : Z) :
  1 <= L ->
  (forall st, st_text st <> [] ->
              (length (st_text (split_body L st)) < length (st_text st))%nat)
  /\ exists n,
       (n <= length text)%nat
       /\ st_text (split_steps n L (split_init text)) = []
       /\ (forall m, (m < n)%nat ->
                     st_text (split_steps m L (split_init text)) <> [])
       /\ (forall fuel, (n < fuel)%nat ->
             split_loop fuel L (split_init text)
             = Some (st_blocks (split_steps n L (split_init text))))
       /\ split_text_for_blocks text L
          = Some (st_blocks (split_steps n L (split_init text))).
Proof.
  intros HL. split.
  - intros st Hne. now apply split_body_decreases.
  - destruct (split_steps_exit L HL (length text) (split_init text))
      as [n [Hn [Hend [Hbefore Hloop]]]]; [simpl; lia |].
    simpl in Hn. exists n. repeat split; try assumption.
    apply Hloop. lia.
Qed.

Lemma split_terminates_witness :
  exists n,
    (n <= 6)%nat
    /\ split_text_for_blocks (of_string "ab" ++ NL :: of_string "cde") 1
       = Some (st_blocks (split_steps n 1
                 (split_init (of_string "ab" ++ NL :: of_string "cde")))).
Proof.
  destruct (split_terminates (of_string "ab" ++ NL :: of_string "cde") 1)
    as [_ [n [Hn [_ [_ [_ Hrun]]]]]]; [lia |].
  exists n. split; assumption.
Defined.

(** C10: for every text and every maximum length L >= 1, the function
    returns, and every block it returns carries a non-empty chunk. *)
Theorem split_chunks_nonempty (text : str) (L : Z) :
  1 <= L ->
  exists bs,
    split_text_for_blocks text L = Some bs
    /\ Forall (fun b => chunk_of b <> []) bs.
Proof.
  intros HL. destruct (split_text_for_blocks_total text L HL) as [bs Hrun].
  exists bs. split; [assumption |].
  destruct (split_loop_invariant
              (fun st => Forall (fun b => chunk_of b <> []) (st_blocks st)) L)
    with (fuel := S (length text)) (st := split_init text) (bs := bs)
    as [st' [Hinv [_ <-]]]; try assumption.
  - intros st Hne Hinv. unfold split_body. simpl.
    apply Forall_app. split; [assumption |].
    constructor; [| constructor].
    unfold chunk_of. simpl.
    pose proof (emitted_chunk_nonempty (st_text st) L HL Hne) as Hpos.
    intros Hnil. rewrite Hnil in Hpos. simpl in Hpos. lia.
  - constructor.
Qed.

Lemma split_chunks_nonempty_witness :
  exists bs,
    split_text_for_blocks ([NL; NL] ++ of_string "ab" ++ [NL]) 1 = Some bs
    /\ Forall (fun b => chunk_of b <> []) bs.
Proof.
  apply (split_chunks_nonempty ([NL; NL] ++ of_string "ab" ++ [NL]) 1). lia.
Defined.

(** ** The prompt builder's claim *)

Lemma strip_nil : strip [] = [].
Proof. reflexivity. Qed.

Lemma summary_line_note (note : value) :
  is_note note = true -> summary_line note = Ok (spec_line note).
Proof.
  destruct note as [| | | | | d]; try discriminate.
  unfold is_note, summary_line, note_content, dict_get, spec_line,
    spec_selected, field_text.
  destruct (lookup d (of_string "content")) as [[| | | [| c s] | |] |];
    destruct (lookup d (of_string "title")) as [[| | | [| c' s'] | |] |];
    simpl; intros Hnote; try discriminate; reflexivity.
Qed.

Lemma summary_line_blank (note : value) :
  is_blank_note note = true -> summary_line note = Ok (of_string "- ").
Proof.
  destruct note as [| | | | | d]; try discriminate.
  unfold is_blank_note, summary_line, note_content, dict_get.
  destruct (lookup d (of_string "content")) as [[| | | [| c s] | |] |];
    destruct (lookup d (of_string "title")) as [[| | | [| c' s'] | |] |];
    simpl; intros Hnote; try discriminate; reflexivity.
Qed.

Lemma summarize_notes (notes : list value) :
  Forall (fun note => is_note note = true) notes ->
  forall summaries,
    summarize notes summaries = Ok (summaries ++ map spec_line notes).
Proof.
  induction 1 as [| note notes Hnote _ IH]; intros summaries; simpl.
  - now rewrite app_nil_r.
  - rewrite (summary_line_note note Hnote). simpl.
    rewrite IH. now rewrite <- app_assoc.
Qed.

Lemma digits_value_digit (a : ascii) (s : string) (acc : N) :
  (48 <= N_of_ascii a <= 57)%N ->
  digits_value (of_string (String a s)) acc
  = digits_value (of_string s) (10 * acc + (N_of_ascii a - 48))%N.
Proof.
  intros [Hlo Hhi].
  change (of_string (String a s)) with (N_of_ascii a :: of_string s).
  cbn [digits_value].
  destruct (N.leb_spec 48 (N_of_ascii a)); [| lia].
  destruct (N.leb_spec (N_of_ascii a) 57); [reflexivity | lia].
Qed.

Ltac digit_case IH :=
  cbn [NilEmpty.string_of_uint Pos.of_uint Pos.of_uint_acc];
  rewrite digits_value_digit by (cbn; lia);
  rewrite <- IH; f_equal;
  match goal with
  | |- context [N_of_ascii ?a] =>
      let v := eval vm_compute in (N_of_ascii a) in
      change (N_of_ascii a) with v
  end; lia.

Lemma digits_value_uint (d : Decimal.uint) :
  (forall p,
      digits_value (of_string (NilEmpty.string_of_uint d)) (Npos p)
      = Some (Npos (Pos.of_uint_acc d p)))
  /\ digits_value (of_string (NilEmpty.string_of_uint d)) 0%N
     = Some (Pos.of_uint d).
Proof.
  induction d as [| d [IHp IH0] | d [IHp IH0] | d [IHp IH0] | d [IHp IH0]
                  | d [IHp IH0] | d [IHp IH0] | d [IHp IH0] | d [IHp IH0]
                  | d [IHp IH0] | d [IHp IH0]];
    (split; [intros p |]); try reflexivity;
    try digit_case IHp; digit_case IH0.
Qed.

(** The text an f-string writes for a count denotes that count. *)
Lemma decimal_value_str_of_int (z : Z) :
  0 <= z -> decimal_value (str_of_int z) = Some (Z.to_N z).
Proof.
  intros Hz. destruct z as [| p | p]; [reflexivity | | lia].
  unfold str_of_int. cbn [Z.to_int NilZero.string_of_int Z.to_N].
  pose proof (DecimalPos.Unsigned.to_uint_nonnil p) as Hnil.
  pose proof (DecimalPos.Unsigned.of_to p) as Hof.
  pose proof (proj2 (digits_value_uint (Pos.to_uint p))) as Hval.
  unfold NilZero.string_of_uint.
  destruct (Pos.to_uint p) eqn:Hd; [congruence | ..];
    rewrite Hof in Hval; exact Hval.
Qed.

Lemma prompt_intro_spec (n : Z) : prompt_intro n = spec_intro (str_of_int n).
Proof. reflexivity. Qed.

(** C6: for every list of notes (records whose content and title are
    strings, [None] or absent), the builder returns, without raising, the
    introductory sentence, in which the number written is the number of
    notes, followed by one "- " line per note, newline-joined, each holding
    the trimmed content if that is non-empty, else the trimmed title, else
    nothing; a note with both fields empty or absent yields the line "- " and
    no error. *)
Theorem prepare_analysis_prompt_renders (notes : list value) :
  Forall (fun note => is_note note = true) notes ->
  (exists count_text,
      decimal_value count_text = Some (N.of_nat (length notes))
      /\ prepare_analysis_prompt notes
         = Ok (spec_intro count_text ++ join [NL] (map spec_line notes)))
  /\ forall note,
       is_blank_note note = true ->
       summary_line note = Ok (of_string "- ")
       /\ (In note notes -> spec_line note = of_string "- ").
Proof.
  intros Hnotes. split.
  - exists (str_of_int (len notes)). split.
    + rewrite decimal_value_str_of_int by apply len_nonneg.
      unfold len. f_equal. lia.
    + unfold prepare_analysis_prompt.
      rewrite (summarize_notes notes Hnotes []), prompt_intro_spec.
      reflexivity.
  - intros note Hblank. split; [now apply summary_line_blank |].
    intros Hin.
    assert (is_note note = true) as Hnote
        by (rewrite Forall_forall in Hnotes; now apply Hnotes).
    pose proof (summary_line_note note Hnote) as Hline.
    rewrite (summary_line_blank note Hblank) in Hline. congruence.
Qed.

Lemma prepare_analysis_prompt_renders_witness :
  (exists count_text,
      decimal_value count_text = Some 4%N
      /\ prepare_analysis_prompt Sample.notes
         = Ok (spec_intro count_text
               ++ join [NL] (map spec_line Sample.notes)))
  /\ prepare_analysis_prompt Sample.notes
     = Ok (of_string "You are a product manager assistant analyzing 4 pieces of product feedback from the last two weeks. Identify key themes, recurring problems, user emotions, and prioritized recommendations for product improvements."
           ++ [NL; NL]
           ++ of_string "Feedback summary list:" ++ [NL]
           ++ of_string "- crashes on save" ++ [NL]
           ++ of_string "- Login loop" ++ [NL]
           ++ of_string "- " ++ [NL]
           ++ of_string "- ").
Proof.
  split.
  - apply (prepare_analysis_prompt_renders Sample.notes).
    repeat constructor.
  - reflexivity.
Defined.

(** ** The fetcher, the run and the notifier *)

Lemma fetch_loop_step cfg svc fuel last_param off notes tr page :
  serves svc (length (requests_of tr)) (page_request cfg last_param off) page ->
  fetch_loop cfg svc (S fuel) last_param off notes tr
  = if len page <? page_limit
    then (Ok (notes ++ page), tr ++ page_events cfg last_param off page)
    else fetch_loop cfg svc fuel last_param (off + page_limit) (notes ++ page)
           (tr ++ page_events cfg last_param off page).
Proof.
  intros (status & d & Hget & Hstatus & Hdata).
  cbn [fetch_loop]. unfold bind at 1. unfold requests_get. rewrite Hget.
  unfold bind at 1. unfold raise_for_status. cbn [fst]. rewrite Hstatus.
  unfold ret at 1. unfold bind at 1. unfold response_json. cbn [snd]. unfold ret at 1.
  unfold bind at 1. unfold dict_get, lift at 1. rewrite Hdata.
  unfold bind at 1. unfold iterate, lift at 1. 
  unfold bind at 1. unfold value_len, lift at 1.
  unfold bind at 1. unfold log, emit.
  rewrite <- app_assoc.
  destruct (len page <? page_limit); reflexivity.
Qed.

Lemma requests_of_app (a b : trace) :
  requests_of (a ++ b) = requests_of a ++ requests_of b.
Proof. apply flat_map_app. Qed.

Lemma fetch_loop_pages cfg svc last_param :
  forall pages last_page fuel off notes tr,
    Forall (fun p => page_limit <= len p) pages ->
    len last_page < page_limit ->
    (forall j page,
        nth_error (pages ++ [last_page]) j = Some page ->
        serves svc (length (requests_of tr) + j)
          (page_request cfg last_param (off + page_limit * Z.of_nat j)) page) ->
    (length pages < fuel)%nat ->
    exists tr',
      fetch_loop cfg svc fuel last_param off notes tr
      = (Ok (notes ++ concat pages ++ last_page), tr')
      /\ requests_of tr'
         = requests_of tr
           ++ map (fun j => page_request cfg last_param
                              (off + page_limit * Z.of_nat j))
                (seq 0 (S (length pages))).
Proof.
  induction pages as [| p pages IH];
    intros last_page fuel off notes tr Hfull Hshort Hserves Hfuel;
    (destruct fuel as [| fuel]; [simpl in Hfuel; lia |]).
  - pose proof (Hserves 0%nat last_page eq_refl) as H0.
    rewrite Nat.add_0_r, Z.mul_0_r, Z.add_0_r in H0.
    rewrite (fetch_loop_step _ _ _ _ _ _ _ _ H0).
    destruct (Z.ltb_spec (len last_page) page_limit); [| lia].
    eexists. split; [reflexivity |].
    rewrite requests_of_app. cbn [seq map length]. 
    now rewrite Z.mul_0_r, Z.add_0_r.
  - pose proof (Hserves 0%nat p eq_refl) as H0.
    rewrite Nat.add_0_r, Z.mul_0_r, Z.add_0_r in H0.
    rewrite (fetch_loop_step _ _ _ _ _ _ _ _ H0).
    inversion Hfull as [| ? ? Hp Hrest]; subst.
    destruct (Z.ltb_spec (len p) page_limit); [lia |].
    destruct (IH last_page fuel (off + page_limit) (notes ++ p)
                (tr ++ page_events cfg last_param off p))
      as [tr' [Hrun Hreq]]; try assumption.
    + intros j page Hj.
      rewrite requests_of_app, length_app. cbn [page_events requests_of flat_map length app].
      replace (length (requests_of tr) + 1 + j)%nat
        with (length (requests_of tr) + S j)%nat by lia.
      replace (off + page_limit + page_limit * Z.of_nat j)
        with (off + page_limit * Z.of_nat (S j)) by lia.
      apply Hserves. exact Hj.
    + simpl in Hfuel. lia.
    + exists tr'. split.
      * rewrite Hrun. cbn [concat]. now rewrite <- !app_assoc.
      * rewrite Hreq, requests_of_app.
        cbn [page_events requests_of flat_map app length].
        rewrite <- app_assoc. f_equal.
        change (seq 0 (S (S (length pages))))
          with (0%nat :: seq 1 (S (length pages))).
        rewrite <- seq_shift, map_cons, map_map.
        rewrite Z.mul_0_r, Z.add_0_r. cbn [app]. f_equal.
        apply map_ext. intros j. f_equal. lia.
Qed.

(** C3: when the feedback API answers the requests the fetcher sends, in
    order, with full pages (100 records or more) followed by one page of
    fewer than 100 records, [fetch_feedback_notes] returns all the records in
    page order, having sent exactly one request per page, the j-th with
    [pageLimit] 100, [pageOffset] 100 * j and the same [last] filter, and
    none after the short page.  Pages of sizes 100, 100, 37 give three
    requests at offsets 0, 100, 200 and 237 records; a short first page gives
    one request. *)
Theorem fetch_feedback_notes_paginates (cfg : config) (svc : services)
    (days : Z) (pages : list (list value)) (last_page : list value)
    (fuel : nat) :
  Forall (fun p => page_limit <= len p) pages ->
  len last_page < page_limit ->
  (forall j page,
      nth_error (pages ++ [last_page]) j = Some page ->
      serves svc j (nth_request cfg days j) page) ->
  (length pages < fuel)%nat ->
  exists tr,
    fetch_feedback_notes cfg svc fuel days []
    = (Ok (concat pages ++ last_page), tr)
    /\ requests_of tr = map (nth_request cfg days) (seq 0 (S (length pages))).
Proof.
  intros Hfull Hshort Hserves Hfuel.
  destruct (fetch_loop_pages cfg svc (str_of_int days ++ of_string "d")
              pages last_page fuel 0 [] [] Hfull Hshort)
    as [tr [Hrun Hreq]]; [| assumption |].
  - intros j page Hj. apply (Hserves j page Hj).
  - unfold fetch_feedback_notes, bind at 1. rewrite Hrun.
    unfold bind, log, emit, ret. eexists. split; [reflexivity |].
    rewrite requests_of_app, Hreq. cbn [requests_of flat_map app].
    now rewrite app_nil_r.
Qed.

Lemma fetch_feedback_notes_paginates_witness :
  exists notes tr,
    fetch_feedback_notes Sample.cfg (Sample.scripted Sample.three_pages) 3 14 []
    = (Ok notes, tr)
    /\ notes = Sample.page 0 237
    /\ map pageOffset (requests_of tr) = [0; 100; 200]
    /\ map last (requests_of tr)
       = [of_string "14d"; of_string "14d"; of_string "14d"].
Proof.
  destruct (fetch_feedback_notes_paginates Sample.cfg
              (Sample.scripted Sample.three_pages) 14
              [Sample.page 0 100; Sample.page 100 100] (Sample.page 200 37) 3)
    as [tr [Hrun Hreq]].
  - repeat constructor; vm_compute; discriminate.
  - reflexivity.
  - intros [| [| [| j]]] page Hj; simpl in Hj;
      [| | | destruct j; discriminate];
      injection Hj as <-; eexists _, _; repeat split; reflexivity.
  - simpl. lia.
  - eexists _, tr. split; [exact Hrun |]. rewrite Hreq.
    repeat split; reflexivity.
Defined.

(** ** What the fetcher may append to the log *)

Lemma quiet_ret {A} (a : A) : quiet (ret a).
Proof. intros tr. exists []. simpl. now rewrite app_nil_r. Qed.

Lemma quiet_lift {A} (o : outcome A) : quiet (lift o).
Proof. intros tr. exists []. simpl. now rewrite app_nil_r. Qed.

Lemma quiet_log (lvl : level) (msg : str) : quiet (log lvl msg).
Proof. intros tr. exists [ELog lvl msg]. simpl. auto. Qed.

Lemma quiet_bind {A B} (m : M A) (k : A -> M B) :
  quiet m -> (forall a, quiet (k a)) -> quiet (bind m k).
Proof.
  intros Hm Hk tr. destruct (Hm tr) as [new1 [Htr1 Hnew1]].
  unfold bind. destruct (m tr) as [[a | e |] tr1]; simpl in Htr1; subst tr1.
  - destruct (Hk a (tr ++ new1)) as [new2 [Htr2 Hnew2]].
    exists (new1 ++ new2). rewrite Htr2, app_assoc.
    split; [reflexivity | now apply Forall_app].
  - exists new1. auto.
  - exists new1. auto.
Qed.

Lemma quiet_requests_get (svc : services) (req : request) :
  quiet (requests_get svc req).
Proof.
  intros tr. exists [EGet req]. unfold requests_get.
  destruct (feedback_api svc _ req); simpl; auto.
Qed.

Lemma quiet_raise_for_status (response : Z * option value) :
  quiet (raise_for_status response).
Proof.
  unfold raise_for_status.
  destruct ((400 <=? fst response) && (fst response <? 600));
    [apply quiet_lift | apply quiet_ret].
Qed.

Lemma quiet_response_json (response : Z * option value) :
  quiet (response_json response).
Proof.
  unfold response_json.
  destruct (snd response); [apply quiet_ret | apply quiet_lift].
Qed.

Create HintDb quiet_db.

#[local] Hint Resolve quiet_ret quiet_lift quiet_log quiet_requests_get
  quiet_raise_for_status quiet_response_json : quiet_db.

Lemma quiet_fetch_loop (cfg : config) (svc : services) (last_param : str) :
  forall fuel page_offset notes,
    quiet (fetch_loop cfg svc fuel last_param page_offset notes).
Proof.
  induction fuel as [| fuel IH]; intros page_offset notes; simpl.
  - apply quiet_lift.
  - repeat (apply quiet_bind; [auto with quiet_db | intros ?]).
    destruct (_ <? page_limit); auto with quiet_db.
Qed.

Lemma quiet_fetch_feedback_notes (cfg : config) (svc : services)
    (fuel : nat) (days : Z) :
  quiet (fetch_feedback_notes cfg svc fuel days).
Proof.
  unfold fetch_feedback_notes.
  apply quiet_bind; [apply quiet_fetch_loop | intros notes].
  apply quiet_bind; auto with quiet_db.
Qed.

(** C7: when the fetch returns no note, [main] logs the warning and returns
    normally, and everything the run has added to the log is a feedback
    request or a log line: no completion call and no Slack post. *)
Theorem main_empty_batch (cfg : config) (svc : services) (fuel : nat)
    (tr tr' : trace) :
  fetch_feedback_notes cfg svc fuel 14 tr = (Ok [], tr') ->
  main cfg svc fuel tr = (Ok tt, tr' ++ [no_notes_warning])
  /\ exists new,
       tr' ++ [no_notes_warning] = tr ++ new
       /\ Forall (fun e => is_downstream_call e = false) new.
Proof.
  intros Hfetch. split.
  - unfold main, bind. rewrite Hfetch. reflexivity.
  - destruct (quiet_fetch_feedback_notes cfg svc fuel 14 tr)
      as [new [Htr Hnew]].
    rewrite Hfetch in Htr. simpl in Htr. subst tr'.
    exists (new ++ [no_notes_warning]). rewrite app_assoc.
    split; [reflexivity |].
    apply Forall_app. split; [assumption | repeat constructor].
Qed.

Lemma main_empty_batch_witness :
  exists tr',
    fetch_feedback_notes Sample.cfg (Sample.scripted []) 1 14 [] = (Ok [], tr')
    /\ main Sample.cfg (Sample.scripted []) 1 [] = (Ok tt, tr' ++ [no_notes_warning])
    /\ forallb (fun e => negb (is_downstream_call e)) (tr' ++ [no_notes_warning])
       = true.
Proof.
  eexists. split; [reflexivity |].
  split.
  - apply (main_empty_batch Sample.cfg (Sample.scripted []) 1 []). reflexivity.
  - reflexivity.
Defined.

(** When Slack rejects the post and the error's response carries data,
    [post_analysis_to_slack] returns normally after logging, at error level,
    the [error] field of that data ("None" when the data has no such field),
    and a run whose fetch and analysis succeeded ends normally as well. *)
Theorem post_failure_is_isolated (cfg : config) (svc : services)
    (channel : option str) (analysis : str) (error : option str)
    (tr : trace) :
  (forall blocks,
      split_text_for_blocks analysis default_max_len = Some blocks ->
      slack_api svc (SLACK_BOT_TOKEN cfg) channel blocks
      = Rejected (ErrorData error)) ->
  exists blocks,
    split_text_for_blocks analysis default_max_len = Some blocks
    /\ post_analysis_to_slack cfg svc channel analysis tr
       = (Ok tt,
          tr ++ [EPost channel blocks;
                 post_failure_log (str_of_optional error)])
    /\ forall fuel tr0 notes tr1,
         fetch_feedback_notes cfg svc fuel 14 tr0 = (Ok notes, tr1) ->
         notes <> [] ->
         analyze_trends_with_gpt cfg svc notes tr1 = (Ok analysis, tr) ->
         channel = PRODUCT_TEAM_CHANNEL cfg ->
         main cfg svc fuel tr0
         = (Ok tt,
            tr ++ [EPost channel blocks;
                   post_failure_log (str_of_optional error)]).
Proof.
  intros Hslack.
  destruct (split_text_for_blocks_total analysis default_max_len)
    as [blocks Hsplit]; [unfold default_max_len; lia |].
  specialize (Hslack blocks Hsplit).
  assert (forall tr,
             post_analysis_to_slack cfg svc channel analysis tr
             = (Ok tt,
                tr ++ [EPost channel blocks;
                       post_failure_log (str_of_optional error)]))
    as Hpost.
  { intros tr2. unfold post_analysis_to_slack. rewrite Hsplit.
    unfold bind at 1, lift. unfold try_except, bind at 1, chat_postMessage.
    rewrite Hslack. unfold bind, lift, response_error, log, emit,
      post_failure_log.
    now rewrite <- app_assoc. }
  exists blocks. split; [assumption |]. split; [apply Hpost |].
  intros fuel tr0 notes tr1 Hfetch Hnotes Hanalyze ->.
  unfold main, bind at 1. rewrite Hfetch.
  destruct notes as [| note notes]; [congruence |]. cbn [truthy negb].
  unfold bind. rewrite Hanalyze. apply Hpost.
Qed.

Lemma post_failure_is_isolated_witness :
  let svc := Sample.scripted [Sample.page 0 2] in
  let tr := snd (analyze_trends_with_gpt Sample.cfg svc (Sample.page 0 2)
                   (snd (fetch_feedback_notes Sample.cfg svc 1 14 []))) in
  exists blocks,
    post_analysis_to_slack Sample.cfg svc (Some (of_string "C042"))
      (of_string "Theme: exports") tr
    = (Ok tt, tr ++ [EPost (Some (of_string "C042")) blocks;
                     post_failure_log (of_string "channel_not_found")])
    /\ exits_successfully (main Sample.cfg svc 1 []).
Proof.
  intros svc tr.
  destruct (post_failure_is_isolated Sample.cfg svc (Some (of_string "C042"))
              (of_string "Theme: exports")
              (Some (of_string "channel_not_found")) tr)
    as [blocks [_ [Hpost Hmain]]].
  - intros blocks _. reflexivity.
  - exists blocks. split; [exact Hpost |].
    unfold exits_successfully.
    rewrite (Hmain 1%nat [] (Sample.page 0 2)
               (snd (fetch_feedback_notes Sample.cfg svc 1 14 [])));
      [reflexivity | reflexivity | discriminate | reflexivity | reflexivity].
Defined.

(** C8 does not hold of the code for every provider-reported error: when
    the [SlackApiError] carries a response without data, the handler catches
    it but fails on [e.response['error']] while building the log line, so a
    [ValueError] leaves [post_analysis_to_slack] with nothing logged, and a
    run whose fetch and analysis succeeded ends with that exception. *)
Theorem post_failure_without_data_escapes (cfg : config) (svc : services)
    (channel : option str) (analysis : str) (tr : trace) :
  (forall blocks,
      split_text_for_blocks analysis default_max_len = Some blocks ->
      slack_api svc (SLACK_BOT_TOKEN cfg) channel blocks = Rejected NoData) ->
  exists blocks,
    split_text_for_blocks analysis default_max_len = Some blocks
    /\ post_analysis_to_slack cfg svc channel analysis tr
       = (Raise ValueError, tr ++ [EPost channel blocks])
    /\ forall fuel tr0 notes tr1,
         fetch_feedback_notes cfg svc fuel 14 tr0 = (Ok notes, tr1) ->
         notes <> [] ->
         analyze_trends_with_gpt cfg svc notes tr1 = (Ok analysis, tr) ->
         channel = PRODUCT_TEAM_CHANNEL cfg ->
         main cfg svc fuel tr0
         = (Raise ValueError, tr ++ [EPost channel blocks]).
Proof.
  intros Hslack.
  destruct (split_text_for_blocks_total analysis default_max_len)
    as [blocks Hsplit]; [unfold default_max_len; lia |].
  specialize (Hslack blocks Hsplit).
  assert (forall tr,
             post_analysis_to_slack cfg svc channel analysis tr
             = (Raise ValueError, tr ++ [EPost channel blocks]))
    as Hpost.
  { intros tr2. unfold post_analysis_to_slack. rewrite Hsplit.
    unfold bind at 1, lift. unfold try_except, bind at 1, chat_postMessage.
    rewrite Hslack. reflexivity. }
  exists blocks. split; [assumption |]. split; [apply Hpost |].
  intros fuel tr0 notes tr1 Hfetch Hnotes Hanalyze ->.
  unfold main, bind at 1. rewrite Hfetch.
  destruct notes as [| note notes]; [congruence |]. cbn [truthy negb].
  unfold bind. rewrite Hanalyze. apply Hpost.
Qed.

Lemma post_failure_without_data_escapes_witness :
  let svc := Sample.wired [Sample.page 0 2]
               (Choices [of_string "Theme: exports"]) (Rejected NoData) in
  let tr := snd (analyze_trends_with_gpt Sample.cfg svc (Sample.page 0 2)
                   (snd (fetch_feedback_notes Sample.cfg svc 1 14 []))) in
  exists blocks,
    post_analysis_to_slack Sample.cfg svc (Some (of_string "C042"))
      (of_string "Theme: exports") tr
    = (Raise ValueError, tr ++ [EPost (Some (of_string "C042")) blocks])
    /\ fst (main Sample.cfg svc 1 []) = Raise ValueError
    /\ ~ exits_successfully (main Sample.cfg svc 1 []).
Proof.
  intros svc tr.
  destruct (post_failure_without_data_escapes Sample.cfg svc
              (Some (of_string "C042")) (of_string "Theme: exports") tr)
    as [blocks [_ [Hpost Hmain]]].
  - intros blocks _. reflexivity.
  - exists blocks. split; [exact Hpost |].
    assert (main Sample.cfg svc 1 []
            = (Raise ValueError,
               tr ++ [EPost (Some (of_string "C042")) blocks])) as Hrun.
    { apply (Hmain 1%nat [] (Sample.page 0 2)
               (snd (fetch_feedback_notes Sample.cfg svc 1 14 [])));
        [reflexivity | discriminate | reflexivity | reflexivity]. }
    unfold exits_successfully. rewrite Hrun. split; [reflexivity |].
    discriminate.
Defined.

(** C4, as stated, fails: with the three credentials set and no channel
    identifier, start-up succeeds and the run goes on to call the network. *)
Lemma missing_channel_does_not_abort :
  environ_get Sample.env_without_channel (of_string "PRODUCT_TEAM_CHANNEL")
  = None
  /\ fst (program Sample.env_without_channel
            (Sample.scripted [Sample.page 0 2]) 1) = Ok tt
  /\ existsb is_network_call
       (snd (program Sample.env_without_channel
               (Sample.scripted [Sample.page 0 2]) 1)) = true.
Proof. repeat split; vm_compute; reflexivity. Qed.

(** C4 (amended): at start-up the script reads three required credentials
    and an optional channel identifier.  When one of the three credentials is
    missing the script stops with a [KeyError] on a missing credential before
    anything is sent or logged, and so it does, with the client's exception,
    when the completion client refuses the key it is built with; when the
    three are present and that client is built, start-up succeeds whether or
    not the channel identifier is set, and [main] runs with the channel as
    found. *)
Theorem startup_requires_credentials (env : environ) (svc : services)
    (fuel : nat) :
  (forall key,
      In key required_keys -> lookup env key = None ->
      exists k,
        In k required_keys /\ lookup env k = None
        /\ program env svc fuel = (Raise (KeyError k), []))
  /\ (forall api_key e,
         (forall key, In key required_keys -> lookup env key <> None) ->
         lookup env (of_string "OPENAI_API_KEY") = Some api_key ->
         openai_client svc api_key = Some e ->
         program env svc fuel = (Raise e, []))
  /\ (forall api_key,
         (forall key, In key required_keys -> lookup env key <> None) ->
         lookup env (of_string "OPENAI_API_KEY") = Some api_key ->
         openai_client svc api_key = None ->
         exists cfg,
           startup svc env = Ok cfg
           /\ PRODUCT_TEAM_CHANNEL cfg
              = lookup env (of_string "PRODUCT_TEAM_CHANNEL")
           /\ program env svc fuel = main cfg svc fuel []).
Proof.
  unfold program, startup, environ_item, environ_get, required_keys,
    new_openai_client.
  destruct (lookup env (of_string "SLACK_BOT_TOKEN")) as [slack |] eqn:Hslack;
    [destruct (lookup env (of_string "PRODUCTBOARD_API_TOKEN"))
       as [pb |] eqn:Hpb;
     [destruct (lookup env (of_string "OPENAI_API_KEY"))
        as [openai |] eqn:Hopenai |] |];
    cbn [obind]; (split; [| split]).
  - intros key [Hk | [Hk | [Hk | []]]] Hnone; subst key; congruence.
  - intros api_key e _ Hkey Hinit. injection Hkey as ->.
    rewrite Hinit. reflexivity.
  - intros api_key _ Hkey Hinit. injection Hkey as ->.
    rewrite Hinit. cbn [obind]. eexists. repeat split.
  - intros key _ _. exists (of_string "OPENAI_API_KEY"). cbn [In]. auto.
  - intros api_key e _ Hkey. discriminate.
  - intros api_key _ Hkey. discriminate.
  - intros key _ _. exists (of_string "PRODUCTBOARD_API_TOKEN"). cbn [In]. auto.
  - intros api_key e Hall. exfalso.
    apply (Hall (of_string "PRODUCTBOARD_API_TOKEN")); cbn [In]; auto.
  - intros api_key Hall. exfalso.
    apply (Hall (of_string "PRODUCTBOARD_API_TOKEN")); cbn [In]; auto.
  - intros key _ _. exists (of_string "SLACK_BOT_TOKEN"). cbn [In]. auto.
  - intros api_key e Hall. exfalso.
    apply (Hall (of_string "SLACK_BOT_TOKEN")); cbn [In]; auto.
  - intros api_key Hall. exfalso.
    apply (Hall (of_string "SLACK_BOT_TOKEN")); cbn [In]; auto.
Qed.

Lemma startup_requires_credentials_witness :
  (exists k,
      In k required_keys /\ lookup Sample.env_without_token k = None
      /\ program Sample.env_without_token (Sample.scripted [Sample.page 0 2]) 1
         = (Raise (KeyError k), []))
  /\ program Sample.env_with_empty_key (Sample.scripted [Sample.page 0 2]) 1
     = (Raise OpenAIError, [])
  /\ exists cfg,
       startup (Sample.scripted [Sample.page 0 2]) Sample.env_without_channel
       = Ok cfg
       /\ PRODUCT_TEAM_CHANNEL cfg = None.
Proof.
  split; [| split].
  - apply (proj1 (startup_requires_credentials Sample.env_without_token
                    (Sample.scripted [Sample.page 0 2]) 1)
             (of_string "SLACK_BOT_TOKEN")).
    + cbn [required_keys In]. auto.
    + reflexivity.
  - apply (proj1 (proj2 (startup_requires_credentials
                           Sample.env_with_empty_key
                           (Sample.scripted [Sample.page 0 2]) 1)) []).
    + intros key [Hk | [Hk | [Hk | []]]]; subst key; discriminate.
    + reflexivity.
    + reflexivity.
  - destruct (proj2 (proj2 (startup_requires_credentials
                              Sample.env_without_channel
                              (Sample.scripted [Sample.page 0 2]) 1))
                (of_string "sk-1"))
      as [cfg [Hstart [Hchannel _]]].
    + intros key [Hk | [Hk | [Hk | []]]]; subst key; discriminate.
    + reflexivity.
    + reflexivity.
    + exists cfg. split; [exact Hstart |]. rewrite Hchannel. reflexivity.
Defined.

(** * Further properties *)

(** ** More on the chunker *)

Lemma chunks_snoc (bs : list block) (c : str) :
  chunks (bs ++ [section_block c]) = chunks bs ++ [c].
Proof. unfold chunks. now rewrite map_app. Qed.

Lemma non_newline_app (a b : str) :
  non_newline (a ++ b) = non_newline a ++ non_newline b.
Proof. apply filter_app. Qed.

Lemma non_newline_lstrip (s : str) :
  non_newline (lstrip_char s NL) = non_newline s.
Proof.
  induction s as [| x s IH]; [reflexivity |]. cbn [lstrip_char].
  destruct (N.eqb_spec x NL) as [-> | Hx]; [| reflexivity].
  rewrite IH. symmetry. apply (non_newline_app [NL] s).
Qed.

Lemma split_body_keeps_non_newline (L : Z) (st : split_state) :
  non_newline (emitted_chunk (st_text st) L)
  ++ non_newline (st_text (split_body L st))
  = non_newline (st_text st).
Proof.
  rewrite split_body_text, non_newline_lstrip, <- non_newline_app.
  destruct (emitted_chunk_firstn (st_text st) L) as [k ->].
  now rewrite firstn_split_self.
Qed.

Lemma split_loop_keeps_non_newline (text : str) (L : Z) (bs : list block) :
  split_text_for_blocks text L = Some bs ->
  non_newline (concat (chunks bs)) = non_newline text.
Proof.
  intros Hrun.
  destruct (split_loop_invariant
              (fun st => non_newline (concat (chunks (st_blocks st)))
                         ++ non_newline (st_text st)
                         = non_newline text) L)
    with (fuel := S (length text)) (st := split_init text) (bs := bs)
    as [st' [Hinv [Hnil <-]]].
  - intros st _ Hinv. rewrite <- Hinv, <- (split_body_keeps_non_newline L st).
    unfold split_body at 1. cbn [st_blocks].
    rewrite chunks_snoc, concat_app, non_newline_app. simpl.
    now rewrite app_nil_r, app_assoc.
  - reflexivity.
  - assumption.
  - rewrite Hnil, app_nil_r in Hinv. exact Hinv.
Qed.

(** Only newlines are ever dropped: whenever the chunker returns, its
    chunks put end to end hold every character of the text other than a
    newline, in the order of the text. *)
Theorem split_drops_only_newlines (text : str) (L : Z) (bs : list block) :
  split_text_for_blocks text L = Some bs ->
  non_newline (concat (chunks bs)) = non_newline text.
Proof. apply split_loop_keeps_non_newline. Qed.

Lemma split_drops_only_newlines_witness :
  exists bs,
    split_text_for_blocks
      (of_string "a b" ++ [NL; NL] ++ of_string "c  d" ++ [NL]) 3 = Some bs
    /\ non_newline (concat (chunks bs)) = of_string "a bc  d".
Proof.
  eexists. split; [reflexivity |].
  rewrite (split_drops_only_newlines
             (of_string "a b" ++ [NL; NL] ++ of_string "c  d" ++ [NL]) 3 _
             eq_refl).
  reflexivity.
Defined.

(** *** Texts without newlines: hard breaks *)

Lemma In_skipn {A} (x : A) (n : nat) (s : list A) :
  In x (skipn n s) -> In x s.
Proof.
  intros Hin. rewrite <- (firstn_skipn n s). apply in_or_app. now right.
Qed.

Lemma rfind_absent (s : str) (c : char) : ~ In c s -> rfind s c = -1.
Proof.
  intros Hnot. destruct (rfind_spec s c) as [[Hr _] | [k [_ [Hk _]]]].
  - assumption.
  - exfalso. apply Hnot. eapply nth_error_In; eassumption.
Qed.

Lemma lstrip_char_absent (s : str) (c : char) :
  ~ In c s -> lstrip_char s c = s.
Proof.
  destruct s as [| x s]; [reflexivity |]. simpl. intros Hnot.
  destruct (N.eqb_spec x c) as [-> | Hx]; [| reflexivity].
  exfalso. apply Hnot. now left.
Qed.

Lemma emitted_chunk_no_newline (text : str) (L : Z) :
  0 <= L -> ~ In NL text -> emitted_chunk text L = firstn (Z.to_nat L) text.
Proof.
  intros HL Hnot. unfold emitted_chunk, candidate.
  rewrite slice_to_nonneg by assumption.
  rewrite rfind_absent; [reflexivity |].
  intros Hin. apply Hnot. eapply In_firstn; eassumption.
Qed.

(** A text without newlines is cut into consecutive pieces: the chunks put
    end to end are the text itself, and every chunk but the last has
    exactly the maximum length. *)
Theorem split_hard_breaks (text : str) (L : Z) :
  1 <= L -> ~ In NL text ->
  exists bs,
    split_text_for_blocks text L = Some bs
    /\ concat (chunks bs) = text
    /\ Forall (fun c => len c = L) (removelast (chunks bs)).
Proof.
  intros HL Hnot.
  destruct (split_text_for_blocks_total text L HL) as [bs Hrun].
  exists bs. split; [assumption |].
  destruct (split_loop_invariant
              (fun st =>
                 concat (chunks (st_blocks st)) ++ st_text st = text
                 /\ ~ In NL (st_text st)
                 /\ Forall (fun c => len c = L)
                      (removelast (chunks (st_blocks st)))
                 /\ (st_text st <> [] ->
                     Forall (fun c => len c = L) (chunks (st_blocks st)))) L)
    with (fuel := S (length text)) (st := split_init text) (bs := bs)
    as [st' [[Hcat [_ [Hfull _]]] [Hnil <-]]].
  - intros st Hne [Hcat [Hno [_ Hfull]]].
    specialize (Hfull Hne).
    pose proof (emitted_chunk_no_newline (st_text st) L ltac:(lia) Hno)
      as Hchunk.
    assert (st_text (split_body L st)
            = skipn (length (firstn (Z.to_nat L) (st_text st))) (st_text st))
      as Htext.
    { rewrite split_body_text, Hchunk. apply lstrip_char_absent.
      intros Hin. apply Hno. eapply In_skipn; eassumption. }
    assert (st_blocks (split_body L st)
            = st_blocks st ++ [section_block (firstn (Z.to_nat L) (st_text st))])
      as Hblocks by (unfold split_body; cbn [st_blocks]; now rewrite Hchunk).
    rewrite Htext, Hblocks, chunks_snoc. repeat split.
    + rewrite concat_app. simpl. rewrite app_nil_r, <- app_assoc.
      now rewrite firstn_split_self.
    + intros Hin. apply Hno. eapply In_skipn; eassumption.
    + now rewrite removelast_last.
    + intros Hrest. apply Forall_app. split; [assumption |].
      constructor; [| constructor].
      unfold len. rewrite length_firstn.
      assert (length (skipn (length (firstn (Z.to_nat L) (st_text st)))
                        (st_text st)) <> 0)%nat as Hlen
          by (intros H0; apply Hrest; now apply length_zero_iff_nil).
      rewrite length_skipn, length_firstn in Hlen. lia.
  - simpl. repeat split; try assumption; constructor.
  - assumption.
  - rewrite Hnil, app_nil_r in Hcat. auto.
Qed.

Lemma split_hard_breaks_witness :
  exists bs,
    split_text_for_blocks (of_string "abcdefgh") 3 = Some bs
    /\ concat (chunks bs) = of_string "abcdefgh"
    /\ Forall (fun c => len c = 3) (removelast (chunks bs)).
Proof.
  apply (split_hard_breaks (of_string "abcdefgh") 3); [lia |].
  intros Hin. vm_compute in Hin. intuition discriminate.
Defined.

(** *** The list of blocks *)

Lemma split_text_for_blocks_cons (c : char) (s : str) (L : Z) :
  split_text_for_blocks (c :: s) L
  = split_loop (S (length s)) L (split_body L (split_init (c :: s))).
Proof. reflexivity. Qed.

(** The chunker returns no block exactly for the empty text, whatever the
    maximum length. *)
Theorem split_no_block_iff_empty (text : str) (L : Z) :
  split_text_for_blocks text L = Some [] <-> text = [].
Proof.
  split.
  - destruct text as [| c s]; [reflexivity |]. intros Hrun.
    rewrite split_text_for_blocks_cons in Hrun.
    apply split_loop_extends in Hrun. destruct Hrun as [rest Hrest].
    unfold split_body in Hrest. simpl in Hrest. discriminate.
  - intros ->. reflexivity.
Qed.

Lemma split_steps_blocks_length (L : Z) :
  forall n st,
    (length (st_blocks (split_steps n L st)) <= length (st_blocks st) + n)%nat.
Proof.
  induction n as [| n IH]; intros st; simpl; [lia |].
  destruct (st_text st); [lia |].
  specialize (IH (split_body L st)). unfold split_body in IH at 2.
  cbn [st_blocks] in IH. rewrite length_app in IH. simpl in IH. lia.
Qed.

(** For a maximum length of 1 or more the chunker returns at most as many
    blocks as the text has characters. *)
Theorem split_block_count (text : str) (L : Z) :
  1 <= L ->
  exists bs,
    split_text_for_blocks text L = Some bs
    /\ (length bs <= length text)%nat.
Proof.
  intros HL.
  destruct (split_steps_exit L HL (length text) (split_init text))
    as [n [Hn [_ [_ Hloop]]]]; [simpl; lia |].
  simpl in Hn. eexists. split.
  - apply Hloop. lia.
  - pose proof (split_steps_blocks_length L n (split_init text)) as Hlen.
    simpl in Hlen. lia.
Qed.

Lemma split_block_count_witness :
  exists bs,
    split_text_for_blocks (of_string "ab" ++ NL :: of_string "cde") 2 = Some bs
    /\ (length bs <= 6)%nat.
Proof.
  apply (split_block_count (of_string "ab" ++ NL :: of_string "cde") 2). lia.
Defined.

(** Every block returned is a [section] block holding a [mrkdwn] text
    object. *)
Theorem split_blocks_are_sections (text : str) (L : Z) (bs : list block) :
  split_text_for_blocks text L = Some bs -> Forall is_section_block bs.
Proof.
  intros Hrun.
  destruct (split_loop_invariant
              (fun st => Forall is_section_block (st_blocks st)) L)
    with (fuel := S (length text)) (st := split_init text) (bs := bs)
    as [st' [Hinv [_ <-]]]; try assumption.
  - intros st _ Hinv. unfold split_body. cbn [st_blocks].
    apply Forall_app. split; [assumption |].
    constructor; [| constructor]. split; reflexivity.
  - constructor.
Qed.

Lemma split_blocks_are_sections_witness :
  exists bs,
    split_text_for_blocks (of_string "ab" ++ NL :: of_string "cde") 2 = Some bs
    /\ Forall is_section_block bs.
Proof.
  eexists. split; [reflexivity |].
  apply (split_blocks_are_sections
           (of_string "ab" ++ NL :: of_string "cde") 2). reflexivity.
Defined.

Lemma lstrip_char_head (s : str) (c : char) :
  hd_error (lstrip_char s c) <> Some c.
Proof.
  induction s as [| x s IH]; simpl; [discriminate |].
  destruct (N.eqb_spec x c) as [-> | Hx]; [assumption |].
  simpl. congruence.
Qed.

Lemma firstn_head {A} (k : nat) (s : list A) (x : A) :
  hd_error (firstn k s) = Some x -> hd_error s = Some x.
Proof. destruct k, s; simpl; congruence. Qed.

(** Leading newlines are stripped before each later iteration: no chunk
    after the first starts with a newline. *)
Theorem split_later_chunks_start_clean (text : str) (L : Z)
    (b : block) (bs : list block) :
  split_text_for_blocks text L = Some (b :: bs) ->
  Forall (fun b' => hd_error (chunk_of b') <> Some NL) bs.
Proof.
  intros Hrun.
  destruct (split_loop_invariant
              (fun st =>
                 st_blocks st = []
                 \/ (Forall (fun b' => hd_error (chunk_of b') <> Some NL)
                       (tl (st_blocks st))
                     /\ hd_error (st_text st) <> Some NL)) L)
    with (fuel := S (length text)) (st := split_init text) (bs := b :: bs)
    as [st' [Hinv [_ Hbs]]]; try assumption.
  - intros st _ Hinv. right. split.
    + unfold split_body. cbn [st_blocks].
      destruct Hinv as [-> | [Htl Hhd]]; [constructor |].
      destruct (st_blocks st) as [| b0 rest]; [constructor |].
      cbn [app tl] in *. apply Forall_app. split; [assumption |].
      constructor; [| constructor].
      unfold chunk_of. cbn [section_block blk_text to_text].
      destruct (emitted_chunk_firstn (st_text st) L) as [k ->].
      intros Hk. apply Hhd. eapply firstn_head; eassumption.
    + rewrite split_body_text. apply lstrip_char_head.
  - left. reflexivity.
  - rewrite Hbs in Hinv. destruct Hinv as [Hnil | [Htl _]];
      [discriminate | exact Htl].
Qed.

Lemma split_later_chunks_start_clean_witness :
  exists b bs,
    split_text_for_blocks
      ([NL] ++ of_string "ab" ++ [NL; NL; NL] ++ of_string "cd") 4
    = Some (b :: bs)
    /\ hd_error (chunk_of b) = Some NL
    /\ Forall (fun b' => hd_error (chunk_of b') <> Some NL) bs.
Proof.
  eexists _, _. split; [reflexivity |]. split; [reflexivity |].
  eapply (split_later_chunks_start_clean
            ([NL] ++ of_string "ab" ++ [NL; NL; NL] ++ of_string "cd") 4).
  reflexivity.
Defined.

(** *** A maximum length of 0 *)

Lemma lstrip_char_idempotent (s : str) (c : char) :
  lstrip_char (lstrip_char s c) c = lstrip_char s c.
Proof.
  induction s as [| x s IH]; simpl; [reflexivity |].
  destruct (N.eqb_spec x c) as [-> | Hx]; [assumption |].
  simpl. destruct (N.eqb_spec x c); [congruence | reflexivity].
Qed.

Lemma split_body_zero_text (st : split_state) :
  st_text (split_body 0 st) = lstrip_char (st_text st) NL.
Proof.
  rewrite split_body_text.
  assert (emitted_chunk (st_text st) 0 = []) as ->; [| reflexivity].
  unfold emitted_chunk, candidate. rewrite slice_to_nonneg by lia.
  reflexivity.
Qed.

(** With a maximum length of 0 nothing is consumed but leading newlines:
    on a text holding any other character the loop never exits, whatever
    the number of iterations allowed. *)
Theorem split_zero_length_never_returns (text : str) (fuel : nat) :
  lstrip_char text NL <> [] ->
  split_loop fuel 0 (split_init text) = None
  /\ split_text_for_blocks text 0 = None.
Proof.
  intros Hrest.
  assert (forall fuel, split_loop fuel 0 (split_init text) = None) as Hnone.
  { intros [| f]; [reflexivity |]. simpl.
    destruct text as [| c s]; [now contradiction Hrest |].
    apply split_loop_stuck.
    - rewrite split_body_zero_text. exact Hrest.
    - rewrite !split_body_zero_text. apply lstrip_char_idempotent. }
  split; apply Hnone.
Qed.

Lemma split_zero_length_never_returns_witness :
  split_loop 1000 0 (split_init ([NL; NL] ++ of_string "a")) = None
  /\ split_text_for_blocks ([NL; NL] ++ of_string "a") 0 = None.
Proof.
  apply (split_zero_length_never_returns ([NL; NL] ++ of_string "a") 1000).
  discriminate.
Defined.

(** ** More on the fetcher *)

Lemma requests_of_pages_events cfg last_param :
  forall pages off,
    requests_of (pages_events cfg last_param off pages)
    = map (fun j => page_request cfg last_param (off + page_limit * Z.of_nat j))
        (seq 0 (length pages)).
Proof.
  induction pages as [| p pages IH]; intros off; [reflexivity |].
  cbn [pages_events length]. rewrite requests_of_app, IH.
  cbn [page_events requests_of flat_map app seq map].
  rewrite Z.mul_0_r, Z.add_0_r. f_equal.
  rewrite <- seq_shift, map_map. apply map_ext. intros j. f_equal. lia.
Qed.

(** Full pages keep the loop going: it consumes them one per iteration and
    carries on from the next offset. *)
Lemma fetch_loop_full_pages cfg svc last_param :
  forall pages fuel off notes tr,
    Forall (fun p => page_limit <= len p) pages ->
    (forall j page,
        nth_error pages j = Some page ->
        serves svc (length (requests_of tr) + j)
          (page_request cfg last_param (off + page_limit * Z.of_nat j)) page) ->
    fetch_loop cfg svc (length pages + fuel) last_param off notes tr
    = fetch_loop cfg svc fuel last_param
        (off + page_limit * Z.of_nat (length pages))
        (notes ++ concat pages)
        (tr ++ pages_events cfg last_param off pages).
Proof.
  induction pages as [| p pages IH]; intros fuel off notes tr Hfull Hserves.
  - cbn [length pages_events concat Nat.add]. 
    now rewrite Z.mul_0_r, Z.add_0_r, !app_nil_r.
  - pose proof (Hserves 0%nat p eq_refl) as H0.
    rewrite Nat.add_0_r, Z.mul_0_r, Z.add_0_r in H0.
    cbn [length Nat.add].
    rewrite (fetch_loop_step _ _ _ _ _ _ _ _ H0).
    inversion Hfull as [| ? ? Hp Hrest]; subst.
    destruct (Z.ltb_spec (len p) page_limit); [lia |].
    rewrite IH; [| assumption |].
    + cbn [pages_events concat]. rewrite <- !app_assoc. f_equal. lia.
    + intros j page Hj.
      rewrite requests_of_app, length_app.
      cbn [page_events requests_of flat_map length app].
      replace (length (requests_of tr) + 1 + j)%nat
        with (length (requests_of tr) + S j)%nat by lia.
      replace (off + page_limit + page_limit * Z.of_nat j)
        with (off + page_limit * Z.of_nat (S j)) by lia.
      apply Hserves. exact Hj.
Qed.

Lemma fetch_loop_after_pages cfg svc days pages fuel :
  Forall (fun p => page_limit <= len p) pages ->
  serves_pages cfg svc days pages ->
  fetch_loop cfg svc (length pages + fuel) (lookback days) 0 [] []
  = fetch_loop cfg svc fuel (lookback days)
      (page_limit * Z.of_nat (length pages)) (concat pages)
      (pages_events cfg (lookback days) 0 pages).
Proof.
  intros Hfull Hserves.
  rewrite fetch_loop_full_pages; [reflexivity | assumption |].
  intros j page Hj. apply (Hserves j page Hj).
Qed.

Lemma requests_after_pages cfg days pages req :
  requests_of (pages_events cfg (lookback days) 0 pages ++ [EGet req])
  = map (nth_request cfg days) (seq 0 (length pages)) ++ [req].
Proof.
  rewrite requests_of_app, requests_of_pages_events. reflexivity.
Qed.

Lemma nth_request_snoc cfg days n :
  map (nth_request cfg days) (seq 0 n) ++ [nth_request cfg days n]
  = map (nth_request cfg days) (seq 0 (S n)).
Proof. now rewrite seq_S, map_app. Qed.

Lemma fetch_requests_prefix (cfg : config) (svc : services)
    (fuel : nat) (days : Z) :
  exists k,
    (k <= fuel)%nat
    /\ requests_of (snd (fetch_feedback_notes cfg svc fuel days []))
       = map (nth_request cfg days) (seq 0 k).
Proof.
  assert (forall fuel off notes tr,
             exists k,
               (k <= fuel)%nat
               /\ requests_of
                    (snd (fetch_loop cfg svc fuel (lookback days) off notes tr))
                  = requests_of tr
                    ++ map (fun j => page_request cfg (lookback days)
                                       (off + page_limit * Z.of_nat j))
                         (seq 0 k)) as Hloop.
  { clear fuel. induction fuel as [| fuel IH]; intros off notes tr.
    - exists 0%nat. simpl. now rewrite app_nil_r.
    - assert (forall tr',
                 requests_of tr'
                 = requests_of tr ++ [page_request cfg (lookback days) off] ->
                 exists k,
                   (k <= S fuel)%nat
                   /\ requests_of tr'
                      = requests_of tr
                        ++ map (fun j => page_request cfg (lookback days)
                                           (off + page_limit * Z.of_nat j))
                             (seq 0 k)) as Hone.
      { intros tr' ->. exists 1%nat. split; [lia |].
        cbn [seq map]. now rewrite Z.mul_0_r, Z.add_0_r. }
      cbn [fetch_loop]. unfold bind at 1. unfold requests_get.
      destruct (feedback_api svc _ _) as [| status body].
      { apply Hone. cbn [snd]. now rewrite requests_of_app. }
      unfold bind at 1. unfold raise_for_status. cbn [fst].
      destruct ((400 <=? status) && (status <? 600)).
      { apply Hone. cbn [snd lift]. now rewrite requests_of_app. }
      unfold ret at 1. unfold bind at 1. unfold response_json. cbn [snd].
      destruct body as [v |];
        [| apply Hone; cbn [snd lift]; now rewrite requests_of_app].
      unfold ret at 1. unfold bind at 1. unfold lift at 1.
      destruct (dict_get v (of_string "data") (VList [])) as [batch | e |];
        try (apply Hone; cbn [snd]; now rewrite requests_of_app).
      unfold bind at 1. unfold lift at 1.
      destruct (iterate batch) as [items | e |];
        try (apply Hone; cbn [snd]; now rewrite requests_of_app).
      unfold bind at 1. unfold lift at 1.
      destruct (value_len batch) as [n | e |];
        try (apply Hone; cbn [snd]; now rewrite requests_of_app).
      unfold bind at 1. unfold log, emit.
      destruct (n <? page_limit).
      { apply Hone. cbn [snd ret]. rewrite <- app_assoc.
        rewrite requests_of_app. reflexivity. }
      destruct (IH (off + page_limit) (notes ++ items)
                  ((tr ++ [EGet (page_request cfg (lookback days) off)])
                   ++ [ELog INFO
                         (of_string "Fetched " ++ str_of_int n
                          ++ of_string " notes (offset=" ++ str_of_int off
                          ++ of_string ")")]))
        as [k [Hk Hreq]].
      exists (S k). split; [lia |]. rewrite Hreq.
      rewrite <- app_assoc, requests_of_app.
      cbn [requests_of flat_map app].
      rewrite <- app_assoc. f_equal.
      change (seq 0 (S k)) with (0%nat :: seq 1 k).
      rewrite <- seq_shift, map_cons, map_map.
      rewrite Z.mul_0_r, Z.add_0_r. cbn [app]. f_equal.
      apply map_ext. intros j. f_equal. lia. }
  destruct (Hloop fuel 0 [] []) as [k [Hk Hreq]].
  exists k. split; [assumption |].
  unfold fetch_feedback_notes, bind at 1. fold (lookback days).
  destruct (fetch_loop cfg svc fuel (lookback days) 0 [] [])
    as [[notes | e |] tr] eqn:Hrun; cbn [snd] in *.
  - unfold bind, log, emit, ret. cbn [snd]. rewrite requests_of_app, Hreq.
    cbn [requests_of flat_map app]. rewrite app_nil_r. reflexivity.
  - exact Hreq.
  - exact Hreq.
Qed.

(** Whatever the feedback API answers and however long the loop runs, the
    requests sent are the first k of the expected sequence: limit 100,
    offsets 0, 100, 200, ..., the same filter, headers and URL. *)
Theorem fetch_requests_are_sequential (cfg : config) (svc : services)
    (fuel : nat) (days : Z) :
  exists k,
    (k <= fuel)%nat
    /\ requests_of (snd (fetch_feedback_notes cfg svc fuel days []))
       = map (nth_request cfg days) (seq 0 k).
Proof. apply fetch_requests_prefix. Qed.

Lemma pages_events_app cfg last_param :
  forall a b off,
    pages_events cfg last_param off (a ++ b)
    = pages_events cfg last_param off a
      ++ pages_events cfg last_param
           (off + page_limit * Z.of_nat (length a)) b.
Proof.
  induction a as [| p a IH]; intros b off.
  - cbn [app pages_events length]. now rewrite Z.mul_0_r, Z.add_0_r.
  - cbn [app pages_events length]. rewrite IH, <- app_assoc.
    do 3 f_equal. lia.
Qed.

Lemma length_requests_of_pages_events cfg last_param off pages :
  length (requests_of (pages_events cfg last_param off pages)) = length pages.
Proof.
  now rewrite requests_of_pages_events, length_map, length_seq.
Qed.

(** The run of the loop on a prefix of full pages, for a budget that
    reaches past them. *)
Lemma fetch_past_full_pages cfg svc days pages fuel :
  Forall (fun p => page_limit <= len p) pages ->
  serves_pages cfg svc days pages ->
  (length pages < fuel)%nat ->
  exists fuel',
    fetch_loop cfg svc fuel (lookback days) 0 [] []
    = fetch_loop cfg svc (S fuel') (lookback days)
        (page_limit * Z.of_nat (length pages)) (concat pages)
        (pages_events cfg (lookback days) 0 pages).
Proof.
  intros Hfull Hserves Hfuel. exists (fuel - length pages - 1)%nat.
  rewrite <- fetch_loop_after_pages by assumption. f_equal. lia.
Qed.

Ltac run_fetch_step days :=
  cbn [fetch_loop]; unfold bind at 1; unfold requests_get;
  rewrite length_requests_of_pages_events;
  match goal with
  | H : feedback_api _ _ _ = _ |- _ =>
      unfold nth_request in H; fold (lookback days) in H; rewrite H
  end.

(** An error status on any page aborts the fetch with that status, whatever
    the body holds: the records of the earlier pages are not returned and no
    total is logged. *)
Theorem fetch_error_status_aborts (cfg : config) (svc : services) (days : Z)
    (pages : list (list value)) (status : Z) (body : option value)
    (fuel : nat) :
  Forall (fun p => page_limit <= len p) pages ->
  serves_pages cfg svc days pages ->
  feedback_api svc (length pages) (nth_request cfg days (length pages))
  = Responded status body ->
  400 <= status < 600 ->
  (length pages < fuel)%nat ->
  fetch_feedback_notes cfg svc fuel days []
  = (Raise (HTTPError status),
     pages_events cfg (lookback days) 0 pages
     ++ [EGet (nth_request cfg days (length pages))]).
Proof.
  intros Hfull Hserves Hget Hstatus Hfuel.
  destruct (fetch_past_full_pages cfg svc days pages fuel Hfull Hserves Hfuel)
    as [fuel' Hrun].
  unfold fetch_feedback_notes, bind at 1. fold (lookback days). rewrite Hrun.
  run_fetch_step days.
  unfold bind at 1. unfold raise_for_status. cbn [fst].
  destruct (Z.leb_spec 400 status); [| lia].
  destruct (Z.ltb_spec status 600); [| lia].
  reflexivity.
Qed.

(** No answer at all, or an answer whose body is not JSON, aborts the fetch
    as well. *)
Theorem fetch_unusable_answer_aborts (cfg : config) (svc : services)
    (days : Z) (pages : list (list value)) (fuel : nat) :
  Forall (fun p => page_limit <= len p) pages ->
  serves_pages cfg svc days pages ->
  (length pages < fuel)%nat ->
  (feedback_api svc (length pages) (nth_request cfg days (length pages))
   = NoResponse ->
   fetch_feedback_notes cfg svc fuel days []
   = (Raise ConnectionError,
      pages_events cfg (lookback days) 0 pages
      ++ [EGet (nth_request cfg days (length pages))]))
  /\ (forall status,
         (400 <=? status) && (status <? 600) = false ->
         feedback_api svc (length pages) (nth_request cfg days (length pages))
         = Responded status None ->
         fetch_feedback_notes cfg svc fuel days []
         = (Raise JSONDecodeError,
            pages_events cfg (lookback days) 0 pages
            ++ [EGet (nth_request cfg days (length pages))])).
Proof.
  intros Hfull Hserves Hfuel.
  destruct (fetch_past_full_pages cfg svc days pages fuel Hfull Hserves Hfuel)
    as [fuel' Hrun].
  split.
  - intros Hget.
    unfold fetch_feedback_notes, bind at 1. fold (lookback days). rewrite Hrun.
    run_fetch_step days. reflexivity.
  - intros status Hstatus Hget.
    unfold fetch_feedback_notes, bind at 1. fold (lookback days). rewrite Hrun.
    run_fetch_step days.
    unfold bind at 1. unfold raise_for_status. cbn [fst]. rewrite Hstatus.
    reflexivity.
Qed.

(** A JSON object without a [data] key counts as an empty page: the
    pagination ends there and the records fetched so far are returned. *)
Theorem fetch_missing_data_ends (cfg : config) (svc : services) (days : Z)
    (pages : list (list value)) (status : Z) (d : list (str * value))
    (fuel : nat) :
  Forall (fun p => page_limit <= len p) pages ->
  serves_pages cfg svc days pages ->
  feedback_api svc (length pages) (nth_request cfg days (length pages))
  = Responded status (Some (VDict d)) ->
  (400 <=? status) && (status <? 600) = false ->
  lookup d (of_string "data") = None ->
  (length pages < fuel)%nat ->
  fetch_feedback_notes cfg svc fuel days []
  = (Ok (concat pages),
     pages_events cfg (lookback days) 0 (pages ++ [[]])
     ++ [total_log days (concat pages)]).
Proof.
  intros Hfull Hserves Hget Hstatus Hdata Hfuel.
  destruct (fetch_past_full_pages cfg svc days pages fuel Hfull Hserves Hfuel)
    as [fuel' Hrun].
  unfold fetch_feedback_notes, bind at 1. fold (lookback days). rewrite Hrun.
  run_fetch_step days.
  unfold bind at 1. unfold raise_for_status. cbn [fst]. rewrite Hstatus.
  unfold ret at 1. unfold bind at 1. unfold response_json. cbn [snd].
  unfold ret at 1. unfold bind at 1. unfold dict_get, lift at 1. rewrite Hdata.
  unfold bind at 1. unfold iterate, lift at 1.
  unfold bind at 1. unfold value_len, lift at 1.
  unfold bind at 1. unfold log, emit.
  change (len (@nil value) <? page_limit) with true. cbv iota.
  unfold ret at 1. unfold bind, ret. cbn [snd fst].
  rewrite pages_events_app, app_nil_r. cbn [pages_events].
  unfold page_events, total_log. rewrite Z.add_0_l, <- !app_assoc.
  reflexivity.
Qed.

(** The loop has no bound of its own: against a feedback API whose every
    page is full, no number of iterations is enough, and each iteration
    sends one more request. *)
Theorem fetch_never_returns_on_full_pages (cfg : config) (svc : services)
    (days : Z) (page_of : nat -> list value) (fuel : nat) :
  (forall j, serves svc j (nth_request cfg days j) (page_of j)
             /\ page_limit <= len (page_of j)) ->
  fetch_feedback_notes cfg svc fuel days []
  = (Diverge,
     pages_events cfg (lookback days) 0 (map page_of (seq 0 fuel))).
Proof.
  intros Hfull.
  pose proof (fetch_loop_after_pages cfg svc days
                (map page_of (seq 0 fuel)) 0) as Hrun.
  rewrite length_map, length_seq, Nat.add_0_r in Hrun.
  unfold fetch_feedback_notes, bind at 1. fold (lookback days).
  rewrite Hrun; [reflexivity | |].
  - apply Forall_forall. intros p Hp. apply in_map_iff in Hp.
    destruct Hp as [j [<- _]]. apply Hfull.
  - intros j page Hj. rewrite nth_error_map in Hj.
    destruct (nth_error (seq 0 fuel) j) as [i |] eqn:Hi; [| discriminate].
    injection Hj as <-.
    assert (i = j) as ->.
    { assert (j < length (seq 0 fuel))%nat as Hlt
          by (apply nth_error_Some; congruence).
      rewrite length_seq in Hlt.
      rewrite (nth_error_nth' _ 0%nat) in Hi by (now rewrite length_seq).
      rewrite seq_nth in Hi by assumption. injection Hi as <-. reflexivity. }
    apply Hfull.
Qed.

Lemma fetch_never_returns_on_full_pages_witness :
  fst (fetch_feedback_notes Sample.cfg
         (Sample.then_answer [] (Sample.json_page (Sample.page 0 100))) 5 14 [])
  = Diverge
  /\ length (requests_of
               (snd (fetch_feedback_notes Sample.cfg
                       (Sample.then_answer [] (Sample.json_page (Sample.page 0 100)))
                       5 14 []))) = 5%nat.
Proof.
  rewrite (fetch_never_returns_on_full_pages Sample.cfg
             (Sample.then_answer [] (Sample.json_page (Sample.page 0 100))) 14
             (fun _ => Sample.page 0 100) 5).
  - split; reflexivity.
  - intros j. split.
    + exists 200, [(of_string "data", VList (Sample.page 0 100))].
      repeat split. cbn. now destruct j.
    + vm_compute. discriminate.
Defined.

(** On a successful fetch the log holds, per page and in order, the
    request and one progress line, then a single closing line with the
    total, which is the number of records returned. *)
Theorem fetch_log_on_success (cfg : config) (svc : services) (days : Z)
    (pages : list (list value)) (last_page : list value) (fuel : nat) :
  Forall (fun p => page_limit <= len p) pages ->
  len last_page < page_limit ->
  serves_pages cfg svc days (pages ++ [last_page]) ->
  (length pages < fuel)%nat ->
  fetch_feedback_notes cfg svc fuel days []
  = (Ok (concat pages ++ last_page),
     pages_events cfg (lookback days) 0 (pages ++ [last_page])
     ++ [total_log days (concat pages ++ last_page)]).
Proof.
  intros Hfull Hshort Hserves Hfuel.
  assert (serves_pages cfg svc days pages) as Hprefix.
  { intros j page Hj. apply Hserves.
    rewrite nth_error_app1; [assumption |].
    apply nth_error_Some. congruence. }
  destruct (fetch_past_full_pages cfg svc days pages fuel Hfull Hprefix Hfuel)
    as [fuel' Hrun].
  unfold fetch_feedback_notes, bind at 1. fold (lookback days). rewrite Hrun.
  rewrite (fetch_loop_step _ _ _ _ _ _ _ last_page).
  - destruct (Z.ltb_spec (len last_page) page_limit); [| lia].
    unfold bind, log, emit, ret, total_log.
    rewrite pages_events_app. cbn [pages_events].
    now rewrite Z.add_0_l, app_nil_r.
  - rewrite length_requests_of_pages_events.
    apply (Hserves (length pages) last_page).
    rewrite nth_error_app2, Nat.sub_diag by lia. reflexivity.
Qed.

Lemma sample_serves_pages (pages : list (list value)) (r : http_result)
    (days : Z) :
  serves_pages Sample.cfg (Sample.then_answer pages r) days pages.
Proof.
  intros j page Hj. exists 200, [(of_string "data", VList page)].
  cbn. rewrite Hj. repeat split.
Qed.

Lemma fetch_log_on_success_witness :
  exists tr,
    fetch_feedback_notes Sample.cfg
      (Sample.then_answer [Sample.page 0 100; Sample.page 100 3] NoResponse) 2 14 []
    = (Ok (Sample.page 0 103), tr)
    /\ map (fun e => match e with ELog _ msg => msg | _ => [] end) tr
       = [ []; of_string "Fetched 100 notes (offset=0)";
           []; of_string "Fetched 3 notes (offset=100)";
           of_string "Total notes fetched for last 14 days: 103" ].
Proof.
  eexists. split.
  - rewrite (fetch_log_on_success Sample.cfg
               (Sample.then_answer [Sample.page 0 100; Sample.page 100 3] NoResponse)
               14 [Sample.page 0 100] (Sample.page 100 3) 2).
    + reflexivity.
    + repeat constructor. vm_compute. discriminate.
    + reflexivity.
    + apply sample_serves_pages.
    + simpl. lia.
  - reflexivity.
Defined.

Lemma fetch_error_status_aborts_witness :
  fetch_feedback_notes Sample.cfg
    (Sample.then_answer [Sample.page 0 100]
       (Responded 503 (Some (VDict [(of_string "data", VList [])])))) 3 14 []
  = (Raise (HTTPError 503),
     page_events Sample.cfg (of_string "14d") 0 (Sample.page 0 100)
     ++ [EGet (nth_request Sample.cfg 14 1)]).
Proof.
  rewrite (fetch_error_status_aborts Sample.cfg _ 14 [Sample.page 0 100] 503
             (Some (VDict [(of_string "data", VList [])])) 3).
  - reflexivity.
  - repeat constructor. vm_compute. discriminate.
  - apply sample_serves_pages.
  - reflexivity.
  - lia.
  - simpl. lia.
Defined.

Lemma fetch_unusable_answer_aborts_witness :
  fst (fetch_feedback_notes Sample.cfg
         (Sample.then_answer [Sample.page 0 100] NoResponse) 3 14 [])
  = Raise ConnectionError
  /\ fst (fetch_feedback_notes Sample.cfg
            (Sample.then_answer [Sample.page 0 100] (Responded 200 None)) 3 14 [])
     = Raise JSONDecodeError.
Proof.
  split.
  - rewrite (proj1 (fetch_unusable_answer_aborts Sample.cfg
                      (Sample.then_answer [Sample.page 0 100] NoResponse) 14
                      [Sample.page 0 100] 3
                      ltac:(repeat constructor; vm_compute; discriminate)
                      (sample_serves_pages _ _ _) ltac:(simpl; lia)));
      reflexivity.
  - rewrite (proj2 (fetch_unusable_answer_aborts Sample.cfg
                      (Sample.then_answer [Sample.page 0 100] (Responded 200 None)) 14
                      [Sample.page 0 100] 3
                      ltac:(repeat constructor; vm_compute; discriminate)
                      (sample_serves_pages _ _ _) ltac:(simpl; lia)) 200);
      reflexivity.
Defined.

Lemma fetch_missing_data_ends_witness :
  exists tr,
    fetch_feedback_notes Sample.cfg
      (Sample.then_answer [Sample.page 0 100]
         (Responded 200 (Some (VDict [(of_string "error", VStr [])])))) 3 14 []
    = (Ok (Sample.page 0 100), tr)
    /\ length (requests_of tr) = 2%nat.
Proof.
  eexists. split.
  - rewrite (fetch_missing_data_ends Sample.cfg _ 14 [Sample.page 0 100] 200
               [(of_string "error", VStr [])] 3).
    + reflexivity.
    + repeat constructor. vm_compute. discriminate.
    + apply sample_serves_pages.
    + reflexivity.
    + reflexivity.
    + reflexivity.
    + simpl. lia.
  - reflexivity.
Defined.

(** ** More on the prompt builder *)

Lemma note_content_dict (d : list (str * value)) :
  note_content (VDict d)
  = Ok (py_or (py_or (field d (of_string "content"))
                     (field d (of_string "title"))) (VStr [])).
Proof.
  unfold note_content, dict_get, field, py_or. cbn [obind].
  destruct (truthy match lookup d (of_string "content") with
                   | Some x => x
                   | None => VNone
                   end) eqn:Hc.
  - now rewrite Hc.
  - reflexivity.
Qed.

Lemma summary_line_outcome (note : value) :
  if selects_text note
  then exists line, summary_line note = Ok line
  else summary_line note = Raise AttributeError.
Proof.
  destruct note as [| | | | | d]; try reflexivity.
  unfold selects_text, summary_line. rewrite note_content_dict. cbn [obind].
  destruct (py_or _ (VStr [])); cbn [str_strip obind]; try reflexivity.
  eexists; reflexivity.
Qed.

Lemma summarize_outcome (notes : list value) :
  forall summaries,
    if forallb selects_text notes
    then exists lines, summarize notes summaries = Ok lines
    else summarize notes summaries = Raise AttributeError.
Proof.
  induction notes as [| note notes IH]; intros summaries; cbn [forallb summarize].
  - eexists; reflexivity.
  - pose proof (summary_line_outcome note) as Hline.
    destruct (selects_text note); cbn [andb].
    + destruct Hline as [line ->]. cbn [obind]. apply IH.
    + rewrite Hline. reflexivity.
Qed.

Lemma prepare_analysis_prompt_cases (notes : list value) :
  if forallb selects_text notes
  then exists prompt, prepare_analysis_prompt notes = Ok prompt
  else prepare_analysis_prompt notes = Raise AttributeError.
Proof.
  unfold prepare_analysis_prompt.
  pose proof (summarize_outcome notes []) as Hsum.
  destruct (forallb selects_text notes).
  - destruct Hsum as [lines ->]. eexists; reflexivity.
  - rewrite Hsum. reflexivity.
Qed.

(** The builder raises nothing but [AttributeError], and raises it exactly
    when some note is not a dictionary or selects a value that is not a
    string. *)
Theorem prepare_analysis_prompt_outcome (notes : list value) :
  if forallb selects_text notes
  then exists prompt, prepare_analysis_prompt notes = Ok prompt
  else prepare_analysis_prompt notes = Raise AttributeError.
Proof. apply prepare_analysis_prompt_cases. Qed.

Lemma lstrip_all_space (s : str) : forallb isspace s = true -> lstrip s = [].
Proof.
  induction s as [| x s IH]; [reflexivity |]. cbn [forallb lstrip].
  intros Hall. apply andb_prop in Hall. destruct Hall as [-> Hs]. auto.
Qed.

Lemma strip_all_space (s : str) : forallb isspace s = true -> strip s = [].
Proof.
  intros Hall. unfold strip. now rewrite (lstrip_all_space s Hall).
Qed.

(** A content made only of white space is still selected, since it is not
    empty: the line is a bare "- " and the title is not used. *)
Theorem blank_content_hides_title (d : list (str * value)) (s : str) :
  lookup d (of_string "content") = Some (VStr s) ->
  s <> [] ->
  forallb isspace s = true ->
  summary_line (VDict d) = Ok (of_string "- ").
Proof.
  intros Hc Hne Hall.
  unfold summary_line, note_content, dict_get. rewrite Hc.
  destruct s as [| x s]; [congruence |]. cbn [obind truthy str_strip].
  now rewrite (strip_all_space _ Hall).
Qed.

Lemma blank_content_hides_title_witness :
  summary_line
    (VDict [ (of_string "content", VStr (of_string "   "));
             (of_string "title", VStr (of_string "Crash on save")) ])
  = Ok (of_string "- ").
Proof.
  apply (blank_content_hides_title _ (of_string "   "));
    [reflexivity | discriminate | reflexivity].
Defined.

(** ** The summarizer client *)

Lemma prepare_analysis_prompt_notes (notes : list value) :
  Forall (fun note => is_note note = true) notes ->
  prepare_analysis_prompt notes = Ok (spec_prompt notes).
Proof.
  intros Hnotes. unfold prepare_analysis_prompt, spec_prompt.
  now rewrite (summarize_notes notes Hnotes []), prompt_intro_spec.
Qed.

Lemma analyze_with_prompt (cfg : config) (svc : services)
    (notes : list value) (prompt : str) (tr : trace) :
  prepare_analysis_prompt notes = Ok prompt ->
  analyze_trends_with_gpt cfg svc notes tr
  = match completion_api svc (OPENAI_API_KEY cfg) gpt_model prompt with
    | CompletionFailed =>
        (Raise OpenAIError, tr ++ [sending_log; EComplete gpt_model prompt])
    | Choices [] =>
        (Raise IndexError, tr ++ [sending_log; EComplete gpt_model prompt])
    | Choices (c :: _) =>
        (Ok c, tr ++ [sending_log; EComplete gpt_model prompt; received_log])
    end.
Proof.
  intros Hprompt. unfold analyze_trends_with_gpt. rewrite Hprompt.
  unfold bind at 1. unfold lift at 1. unfold bind at 1. unfold log, emit.
  unfold bind at 1. unfold chat_completions_create. fold gpt_model.
  destruct (completion_api svc (OPENAI_API_KEY cfg) gpt_model prompt)
    as [| [| c cs]]; unfold bind, lift, ret, sending_log, received_log;
    now rewrite <- !app_assoc.
Qed.

(** With well-formed notes and an answer holding at least one choice, the
    summarizer sends the model [gpt-4o] one request carrying exactly the
    prompt built from the notes, logs before and after, and returns the
    first choice. *)
Theorem analyze_returns_first_choice (cfg : config) (svc : services)
    (notes : list value) (c : str) (cs : list str) (tr : trace) :
  Forall (fun note => is_note note = true) notes ->
  completion_api svc (OPENAI_API_KEY cfg) gpt_model (spec_prompt notes)
  = Choices (c :: cs) ->
  analyze_trends_with_gpt cfg svc notes tr
  = (Ok c,
     tr ++ [sending_log; EComplete gpt_model (spec_prompt notes);
            received_log]).
Proof.
  intros Hnotes Hapi.
  rewrite (analyze_with_prompt cfg svc notes (spec_prompt notes) tr
             (prepare_analysis_prompt_notes notes Hnotes)).
  now rewrite Hapi.
Qed.

(** When the prompt cannot be built, the summarizer raises before it logs
    or sends anything. *)
Theorem analyze_bad_note_sends_nothing (cfg : config) (svc : services)
    (notes : list value) (tr : trace) :
  forallb selects_text notes = false ->
  analyze_trends_with_gpt cfg svc notes tr = (Raise AttributeError, tr).
Proof.
  intros Hbad. pose proof (prepare_analysis_prompt_cases notes) as Hprompt.
  rewrite Hbad in Hprompt. unfold analyze_trends_with_gpt.
  rewrite Hprompt. reflexivity.
Qed.

(** A failed completion, or an answer without choices, raises out of the
    summarizer after the one request, and the closing line is not logged. *)
Theorem analyze_failure_propagates (cfg : config) (svc : services)
    (notes : list value) (prompt : str) (tr : trace) :
  prepare_analysis_prompt notes = Ok prompt ->
  (completion_api svc (OPENAI_API_KEY cfg) gpt_model prompt = CompletionFailed ->
   analyze_trends_with_gpt cfg svc notes tr
   = (Raise OpenAIError, tr ++ [sending_log; EComplete gpt_model prompt]))
  /\ (completion_api svc (OPENAI_API_KEY cfg) gpt_model prompt = Choices [] ->
      analyze_trends_with_gpt cfg svc notes tr
      = (Raise IndexError, tr ++ [sending_log; EComplete gpt_model prompt])).
Proof.
  intros Hprompt.
  rewrite (analyze_with_prompt cfg svc notes prompt tr Hprompt).
  split; intros ->; reflexivity.
Qed.

(** ** More on the notifier *)

Lemma post_with_blocks (cfg : config) (svc : services)
    (channel : option str) (analysis : str) (blocks : list block)
    (tr : trace) :
  split_text_for_blocks analysis default_max_len = Some blocks ->
  post_analysis_to_slack cfg svc channel analysis tr
  = match slack_api svc (SLACK_BOT_TOKEN cfg) channel blocks with
    | Posted => (Ok tt, tr ++ [EPost channel blocks; posted_log channel])
    | Rejected (ErrorData error) =>
        (Ok tt,
         tr ++ [EPost channel blocks;
                post_failure_log (str_of_optional error)])
    | Rejected NoData => (Raise ValueError, tr ++ [EPost channel blocks])
    | Unreachable => (Raise SlackTransportError, tr ++ [EPost channel blocks])
    end.
Proof.
  intros Hsplit. unfold post_analysis_to_slack. rewrite Hsplit.
  unfold bind at 1, lift. unfold try_except, bind at 1, chat_postMessage.
  destruct (slack_api svc (SLACK_BOT_TOKEN cfg) channel blocks)
    as [| [| error] |];
    unfold bind, lift, response_error, log, emit, posted_log,
      post_failure_log;
    now rewrite <- ?app_assoc.
Qed.

Lemma split_chunks_within (text : str) (L : Z) (bs : list block) :
  0 <= L -> split_text_for_blocks text L = Some bs -> chunks_bounded L bs.
Proof.
  intros HL Hrun.
  destruct (split_loop_invariant
              (fun st => chunks_bounded L (st_blocks st)) L)
    with (fuel := S (length text)) (st := split_init text) (bs := bs)
    as [st' [Hinv [_ <-]]]; try assumption.
  - intros st _ Hinv. unfold split_body, chunks_bounded. cbn [st_blocks].
    apply Forall_app. split; [assumption |].
    constructor; [| constructor].
    unfold chunk_of. cbn. now apply emitted_chunk_len_le.
  - constructor.
Qed.

Lemma split_chunks_not_nil (text : str) (L : Z) (bs : list block) :
  1 <= L -> split_text_for_blocks text L = Some bs ->
  Forall (fun b => chunk_of b <> []) bs.
Proof.
  intros HL Hrun.
  destruct (split_loop_invariant
              (fun st => Forall (fun b => chunk_of b <> []) (st_blocks st)) L)
    with (fuel := S (length text)) (st := split_init text) (bs := bs)
    as [st' [Hinv [_ <-]]]; try assumption.
  - intros st Hne Hinv. unfold split_body. cbn [st_blocks].
    apply Forall_app. split; [assumption |].
    constructor; [| constructor].
    unfold chunk_of. cbn.
    pose proof (emitted_chunk_nonempty (st_text st) L HL Hne) as Hpos.
    intros Hnil. rewrite Hnil in Hpos. simpl in Hpos. lia.
  - constructor.
Qed.

Lemma posts_of_app (a b : trace) : posts_of (a ++ b) = posts_of a ++ posts_of b.
Proof. apply flat_map_app. Qed.

Lemma completions_of_app (a b : trace) :
  completions_of (a ++ b) = completions_of a ++ completions_of b.
Proof. apply flat_map_app. Qed.

(** Whatever the analysis and whatever Slack answers, the notifier makes
    exactly one Slack call and no other call; the blocks it sends are the
    chunks of the analysis, each non-empty and of at most 2900 characters,
    and only newlines of the analysis are missing from them. *)
Theorem post_sends_bounded_blocks (cfg : config) (svc : services)
    (channel : option str) (analysis : str) (tr : trace) :
  exists blocks new,
    snd (post_analysis_to_slack cfg svc channel analysis tr) = tr ++ new
    /\ posts_of new = [(channel, blocks)]
    /\ completions_of new = [] /\ requests_of new = []
    /\ chunks_bounded default_max_len blocks
    /\ Forall (fun b => chunk_of b <> []) blocks
    /\ non_newline (concat (chunks blocks)) = non_newline analysis.
Proof.
  destruct (split_text_for_blocks_total analysis default_max_len)
    as [blocks Hsplit]; [unfold default_max_len; lia |].
  exists blocks.
  rewrite (post_with_blocks cfg svc channel analysis blocks tr Hsplit).
  assert (chunks_bounded default_max_len blocks
          /\ Forall (fun b => chunk_of b <> []) blocks
          /\ non_newline (concat (chunks blocks)) = non_newline analysis)
    as Hblocks.
  { repeat split.
    - apply (split_chunks_within analysis); [unfold default_max_len; lia |].
      assumption.
    - apply (split_chunks_not_nil analysis default_max_len);
        [unfold default_max_len; lia | assumption].
    - now apply (split_loop_keeps_non_newline analysis default_max_len). }
  destruct (slack_api svc (SLACK_BOT_TOKEN cfg) channel blocks)
    as [| [| error] |];
    eexists; (split; [reflexivity |]); repeat split; apply Hblocks.
Qed.

(** A failure to reach Slack is not a provider-reported error: it is not
    caught, nothing is logged, and it ends [main] with the exception. *)
Theorem post_transport_failure_propagates (cfg : config) (svc : services)
    (channel : option str) (analysis : str) (tr : trace) :
  (forall blocks,
      split_text_for_blocks analysis default_max_len = Some blocks ->
      slack_api svc (SLACK_BOT_TOKEN cfg) channel blocks = Unreachable) ->
  exists blocks,
    post_analysis_to_slack cfg svc channel analysis tr
    = (Raise SlackTransportError, tr ++ [EPost channel blocks])
    /\ forall fuel tr0 notes tr1,
         fetch_feedback_notes cfg svc fuel 14 tr0 = (Ok notes, tr1) ->
         notes <> [] ->
         analyze_trends_with_gpt cfg svc notes tr1 = (Ok analysis, tr) ->
         channel = PRODUCT_TEAM_CHANNEL cfg ->
         main cfg svc fuel tr0
         = (Raise SlackTransportError, tr ++ [EPost channel blocks]).
Proof.
  intros Hslack.
  destruct (split_text_for_blocks_total analysis default_max_len)
    as [blocks Hsplit]; [unfold default_max_len; lia |].
  specialize (Hslack blocks Hsplit).
  assert (forall tr,
             post_analysis_to_slack cfg svc channel analysis tr
             = (Raise SlackTransportError, tr ++ [EPost channel blocks]))
    as Hpost.
  { intros tr2. rewrite (post_with_blocks _ _ _ _ blocks tr2 Hsplit).
    now rewrite Hslack. }
  exists blocks. split; [apply Hpost |].
  intros fuel tr0 notes tr1 Hfetch Hnotes Hanalyze ->.
  unfold main, bind at 1. rewrite Hfetch.
  destruct notes as [| note notes]; [congruence |]. cbn [truthy negb].
  unfold bind. rewrite Hanalyze. apply Hpost.
Qed.

Lemma analyze_returns_first_choice_witness :
  analyze_trends_with_gpt Sample.cfg
    (Sample.wired [] (Choices [of_string "Theme A"; of_string "Theme B"]) Posted)
    Sample.notes []
  = (Ok (of_string "Theme A"),
     [sending_log; EComplete gpt_model (spec_prompt Sample.notes);
      received_log]).
Proof.
  apply (analyze_returns_first_choice Sample.cfg
           (Sample.wired [] (Choices [of_string "Theme A"; of_string "Theme B"])
              Posted)
           Sample.notes (of_string "Theme A") [of_string "Theme B"] []).
  - repeat constructor.
  - reflexivity.
Defined.

Lemma analyze_bad_note_sends_nothing_witness :
  analyze_trends_with_gpt Sample.cfg
    (Sample.wired [] (Choices [of_string "Theme A"]) Posted)
    [ VDict [ (of_string "content", VInt 5) ] ] []
  = (Raise AttributeError, []).
Proof.
  apply (analyze_bad_note_sends_nothing Sample.cfg
           (Sample.wired [] (Choices [of_string "Theme A"]) Posted)).
  reflexivity.
Defined.

Lemma analyze_failure_propagates_witness :
  fst (analyze_trends_with_gpt Sample.cfg (Sample.wired [] CompletionFailed Posted)
         Sample.notes []) = Raise OpenAIError
  /\ fst (analyze_trends_with_gpt Sample.cfg (Sample.wired [] (Choices []) Posted)
            Sample.notes []) = Raise IndexError.
Proof.
  split.
  - rewrite (proj1 (analyze_failure_propagates Sample.cfg
                      (Sample.wired [] CompletionFailed Posted) Sample.notes
                      (spec_prompt Sample.notes) [] eq_refl) eq_refl).
    reflexivity.
  - rewrite (proj2 (analyze_failure_propagates Sample.cfg
                      (Sample.wired [] (Choices []) Posted) Sample.notes
                      (spec_prompt Sample.notes) [] eq_refl) eq_refl).
    reflexivity.
Defined.

Lemma post_transport_failure_propagates_witness :
  exists blocks,
    post_analysis_to_slack Sample.cfg
      (Sample.wired [] (Choices [of_string "Theme A"]) Unreachable)
      (Some (of_string "C042")) (of_string "Theme A") []
    = (Raise SlackTransportError, [EPost (Some (of_string "C042")) blocks]).
Proof.
  destruct (post_transport_failure_propagates Sample.cfg
              (Sample.wired [] (Choices [of_string "Theme A"]) Unreachable)
              (Some (of_string "C042")) (of_string "Theme A") [])
    as [blocks [Hpost _]].
  - intros blocks _. reflexivity.
  - exists blocks. exact Hpost.
Defined.

(** ** More on the run *)

Lemma quiet_no_calls (new : trace) :
  Forall (fun e => is_downstream_call e = false) new ->
  completions_of new = [] /\ posts_of new = [].
Proof.
  induction 1 as [| e new He _ [IHc IHp]]; [split; reflexivity |].
  destruct e; try discriminate He; cbn; auto.
Qed.

(** What [main] does after a fetch that returned notes. *)
Lemma main_after_fetch (cfg : config) (svc : services) (fuel : nat)
    (tr tr1 : trace) (note : value) (notes : list value) :
  fetch_feedback_notes cfg svc fuel 14 tr = (Ok (note :: notes), tr1) ->
  main cfg svc fuel tr
  = match analyze_trends_with_gpt cfg svc (note :: notes) tr1 with
    | (Ok analysis, tr2) =>
        post_analysis_to_slack cfg svc (PRODUCT_TEAM_CHANNEL cfg) analysis tr2
    | (Raise e, tr2) => (Raise e, tr2)
    | (Diverge, tr2) => (Diverge, tr2)
    end.
Proof.
  intros Hfetch. unfold main, bind at 1. rewrite Hfetch.
  cbn [truthy negb]. unfold bind.
  destruct (analyze_trends_with_gpt cfg svc (note :: notes) tr1)
    as [[analysis | e |] tr2]; reflexivity.
Qed.

Lemma analyze_calls (cfg : config) (svc : services) (notes : list value)
    (tr : trace) :
  exists new,
    snd (analyze_trends_with_gpt cfg svc notes tr) = tr ++ new
    /\ posts_of new = [] /\ requests_of new = []
    /\ (length (completions_of new) <= 1)%nat
    /\ (forall analysis,
           fst (analyze_trends_with_gpt cfg svc notes tr) = Ok analysis ->
           completions_of new <> []).
Proof.
  destruct (prepare_analysis_prompt notes) as [prompt | e |] eqn:Hprompt.
  - rewrite (analyze_with_prompt cfg svc notes prompt tr Hprompt).
    destruct (completion_api svc (OPENAI_API_KEY cfg) gpt_model prompt)
      as [| [| c cs]]; eexists; (split; [reflexivity |]);
      cbn; repeat split; try lia; intros; discriminate.
  - exists []. unfold analyze_trends_with_gpt. rewrite Hprompt. cbn.
    rewrite app_nil_r. repeat split; try lia. intros; discriminate.
  - exists []. unfold analyze_trends_with_gpt. rewrite Hprompt. cbn.
    rewrite app_nil_r. repeat split; try lia. intros; discriminate.
Qed.

Lemma post_calls (cfg : config) (svc : services) (channel : option str)
    (analysis : str) (tr : trace) :
  exists new,
    snd (post_analysis_to_slack cfg svc channel analysis tr) = tr ++ new
    /\ (length (posts_of new) = 1)%nat
    /\ completions_of new = [] /\ requests_of new = [].
Proof.
  destruct (split_text_for_blocks_total analysis default_max_len)
    as [blocks Hsplit]; [unfold default_max_len; lia |].
  rewrite (post_with_blocks cfg svc channel analysis blocks tr Hsplit).
  destruct (slack_api svc (SLACK_BOT_TOKEN cfg) channel blocks)
    as [| [| error] |];
    eexists; (split; [reflexivity |]); repeat split.
Qed.

(** In every run, whatever the providers answer, [main] asks for at most
    one completion and posts at most once to Slack, and it posts only if the
    completion was requested. *)
Theorem main_call_discipline (cfg : config) (svc : services) (fuel : nat)
    (tr : trace) :
  exists new,
    snd (main cfg svc fuel tr) = tr ++ new
    /\ (length (completions_of new) <= 1)%nat
    /\ (length (posts_of new) <= 1)%nat
    /\ (posts_of new <> [] -> completions_of new <> []).
Proof.
  destruct (quiet_fetch_feedback_notes cfg svc fuel 14 tr)
    as [new1 [Htr1 Hquiet]].
  destruct (quiet_no_calls new1 Hquiet) as [Hc1 Hp1].
  destruct (fetch_feedback_notes cfg svc fuel 14 tr)
    as [[[| note notes] | e |] tr1] eqn:Hfetch; cbn [snd] in Htr1; subst tr1.
  - exists (new1 ++ [no_notes_warning]).
    unfold main, bind. rewrite Hfetch. cbn [truthy negb snd].
    unfold log, emit, no_notes_warning. cbn [snd].
    rewrite app_assoc, completions_of_app, posts_of_app, Hc1, Hp1.
    cbn. repeat split; try lia. congruence.
  - rewrite (main_after_fetch cfg svc fuel tr _ note notes Hfetch).
    destruct (analyze_calls cfg svc (note :: notes) (tr ++ new1))
      as [new2 [Htr2 [Hp2 [_ [Hc2 Hok]]]]].
    destruct (analyze_trends_with_gpt cfg svc (note :: notes) (tr ++ new1))
      as [[analysis | e |] tr2]; cbn [snd fst] in *; subst tr2.
    + destruct (post_calls cfg svc (PRODUCT_TEAM_CHANNEL cfg)
                  analysis ((tr ++ new1) ++ new2))
        as [new3 [Htr3 [Hp3 [Hc3 _]]]].
      exists (new1 ++ new2 ++ new3). rewrite Htr3.
      rewrite !completions_of_app, !posts_of_app, Hc1, Hp1, Hp2, Hc3.
      rewrite !app_assoc, app_nil_r. cbn [app].
      repeat split; try lia.
      intros _. now apply (Hok analysis).
    + exists (new1 ++ new2).
      rewrite !completions_of_app, !posts_of_app, Hc1, Hp1, Hp2, app_assoc.
      cbn. repeat split; try lia. congruence.
    + exists (new1 ++ new2).
      rewrite !completions_of_app, !posts_of_app, Hc1, Hp1, Hp2, app_assoc.
      cbn. repeat split; try lia. congruence.
  - exists new1. unfold main, bind. rewrite Hfetch. cbn [snd].
    rewrite Hc1, Hp1. cbn. repeat split; try lia. congruence.
  - exists new1. unfold main, bind. rewrite Hfetch. cbn [snd].
    rewrite Hc1, Hp1. cbn. repeat split; try lia. congruence.
Qed.

(** A failure of the fetch, or of the analysis after a fetch that found
    notes, ends [main] with the same exception, and nothing has been posted
    to Slack. *)
Theorem main_failure_propagates (cfg : config) (svc : services) (fuel : nat)
    (tr : trace) :
  (forall e tr1,
      fetch_feedback_notes cfg svc fuel 14 tr = (Raise e, tr1) ->
      main cfg svc fuel tr = (Raise e, tr1)
      /\ completions_of tr1 = completions_of tr
      /\ posts_of tr1 = posts_of tr)
  /\ (forall notes e tr1 tr2,
         fetch_feedback_notes cfg svc fuel 14 tr = (Ok notes, tr1) ->
         notes <> [] ->
         analyze_trends_with_gpt cfg svc notes tr1 = (Raise e, tr2) ->
         main cfg svc fuel tr = (Raise e, tr2)
         /\ posts_of tr2 = posts_of tr).
Proof.
  destruct (quiet_fetch_feedback_notes cfg svc fuel 14 tr)
    as [new1 [Htr1 Hquiet]].
  destruct (quiet_no_calls new1 Hquiet) as [Hc1 Hp1].
  split.
  - intros e tr1 Hfetch. rewrite Hfetch in Htr1. cbn [snd] in Htr1. subst tr1.
    split; [| split].
    + unfold main, bind. now rewrite Hfetch.
    + now rewrite completions_of_app, Hc1, app_nil_r.
    + now rewrite posts_of_app, Hp1, app_nil_r.
  - intros notes e tr1 tr2 Hfetch Hnotes Hanalyze.
    rewrite Hfetch in Htr1. cbn [snd] in Htr1. subst tr1.
    destruct notes as [| note notes]; [congruence |].
    split.
    + rewrite (main_after_fetch cfg svc fuel tr _ note notes Hfetch).
      now rewrite Hanalyze.
    + destruct (analyze_calls cfg svc (note :: notes) (tr ++ new1))
        as [new2 [Htr2 [Hp2 _]]].
      rewrite Hanalyze in Htr2. cbn [snd] in Htr2. subst tr2.
      now rewrite !posts_of_app, Hp1, Hp2, !app_nil_r.
Qed.

Lemma main_failure_propagates_witness :
  fst (main Sample.cfg (Sample.then_answer [] (Responded 500 None)) 1 [])
  = Raise (HTTPError 500)
  /\ fst (main Sample.cfg (Sample.wired [Sample.page 0 2] CompletionFailed Posted)
            1 [])
     = Raise OpenAIError
  /\ posts_of (snd (main Sample.cfg
                      (Sample.wired [Sample.page 0 2] CompletionFailed Posted) 1 []))
     = [].
Proof.
  split; [| split].
  - destruct (proj1 (main_failure_propagates Sample.cfg
                       (Sample.then_answer [] (Responded 500 None)) 1 [])
                (HTTPError 500)
                (snd (fetch_feedback_notes Sample.cfg
                        (Sample.then_answer [] (Responded 500 None)) 1 14 [])))
      as [Hmain _]; [reflexivity |].
    now rewrite Hmain.
  - destruct (proj2 (main_failure_propagates Sample.cfg
                       (Sample.wired [Sample.page 0 2] CompletionFailed Posted) 1 [])
                (Sample.page 0 2) OpenAIError
                (snd (fetch_feedback_notes Sample.cfg
                        (Sample.wired [Sample.page 0 2] CompletionFailed Posted)
                        1 14 []))
                (snd (main Sample.cfg
                        (Sample.wired [Sample.page 0 2] CompletionFailed Posted)
                        1 [])))
      as [Hmain _]; [reflexivity | discriminate | reflexivity |].
    now rewrite Hmain.
  - reflexivity.
Defined.

(** The whole successful run: with notes fetched, a first choice returned
    and Slack accepting the post, [main] ends normally after one completion
    request carrying the prompt built from the notes and one post carrying
    the chunks of that first choice, sent to the configured channel. *)
Theorem main_posts_first_choice (cfg : config) (svc : services) (fuel : nat)
    (tr tr1 : trace) (notes : list value) (c : str) (cs : list str) :
  fetch_feedback_notes cfg svc fuel 14 tr = (Ok notes, tr1) ->
  notes <> [] ->
  Forall (fun note => is_note note = true) notes ->
  completion_api svc (OPENAI_API_KEY cfg) gpt_model (spec_prompt notes)
  = Choices (c :: cs) ->
  (forall blocks,
      split_text_for_blocks c default_max_len = Some blocks ->
      slack_api svc (SLACK_BOT_TOKEN cfg) (PRODUCT_TEAM_CHANNEL cfg) blocks
      = Posted) ->
  exists blocks,
    split_text_for_blocks c default_max_len = Some blocks
    /\ main cfg svc fuel tr
       = (Ok tt,
          tr1 ++ [sending_log; EComplete gpt_model (spec_prompt notes);
                  received_log;
                  EPost (PRODUCT_TEAM_CHANNEL cfg) blocks;
                  posted_log (PRODUCT_TEAM_CHANNEL cfg)]).
Proof.
  intros Hfetch Hne Hnotes Hapi Hslack.
  destruct (split_text_for_blocks_total c default_max_len)
    as [blocks Hsplit]; [unfold default_max_len; lia |].
  exists blocks. split; [assumption |].
  destruct notes as [| note notes]; [congruence |].
  rewrite (main_after_fetch cfg svc fuel tr _ note notes Hfetch).
  rewrite (analyze_with_prompt cfg svc _ _ tr1
             (prepare_analysis_prompt_notes _ Hnotes)), Hapi.
  rewrite (post_with_blocks _ _ _ _ blocks _ Hsplit), (Hslack blocks Hsplit).
  now rewrite <- app_assoc.
Qed.

Lemma main_posts_first_choice_witness :
  exists blocks,
    posts_of (snd (main Sample.cfg
                     (Sample.wired [Sample.page 0 2]
                        (Choices [of_string "Theme A"]) Posted) 1 []))
    = [(Some (of_string "C042"), blocks)]
    /\ chunks blocks = [of_string "Theme A"]
    /\ fst (main Sample.cfg
              (Sample.wired [Sample.page 0 2] (Choices [of_string "Theme A"]) Posted)
              1 []) = Ok tt.
Proof.
  destruct (main_posts_first_choice Sample.cfg
              (Sample.wired [Sample.page 0 2] (Choices [of_string "Theme A"]) Posted)
              1 []
              (snd (fetch_feedback_notes Sample.cfg
                      (Sample.wired [Sample.page 0 2]
                         (Choices [of_string "Theme A"]) Posted) 1 14 []))
              (Sample.page 0 2) (of_string "Theme A") [])
    as [blocks [Hsplit Hmain]].
  - reflexivity.
  - discriminate.
  - repeat constructor.
  - reflexivity.
  - intros blocks _. reflexivity.
  - exists blocks. rewrite Hmain. cbn [snd fst].
    rewrite posts_of_app. split; [reflexivity |]. split; [| reflexivity].
    vm_compute in Hsplit. injection Hsplit as <-. reflexivity.
Defined.

Lemma main_requests (cfg : config) (svc : services) (fuel : nat) (tr : trace) :
  requests_of (snd (main cfg svc fuel tr))
  = requests_of (snd (fetch_feedback_notes cfg svc fuel 14 tr)).
Proof.
  destruct (fetch_feedback_notes cfg svc fuel 14 tr)
    as [[[| note notes] | e |] tr1] eqn:Hfetch; cbn [snd].
  - unfold main, bind. rewrite Hfetch. cbn [truthy negb snd].
    unfold log, emit. cbn [snd]. rewrite requests_of_app. cbn.
    apply app_nil_r.
  - rewrite (main_after_fetch cfg svc fuel tr _ note notes Hfetch).
    destruct (analyze_calls cfg svc (note :: notes) tr1)
      as [new2 [Htr2 [_ [Hr2 _]]]].
    destruct (analyze_trends_with_gpt cfg svc (note :: notes) tr1)
      as [[analysis | e |] tr2]; cbn [snd] in *; subst tr2.
    + destruct (post_calls cfg svc (PRODUCT_TEAM_CHANNEL cfg) analysis
                  (tr1 ++ new2)) as [new3 [Htr3 [_ [_ Hr3]]]].
      rewrite Htr3, !requests_of_app, Hr2, Hr3. now rewrite !app_nil_r.
    + rewrite requests_of_app, Hr2. apply app_nil_r.
    + rewrite requests_of_app, Hr2. apply app_nil_r.
  - unfold main, bind. now rewrite Hfetch.
  - unfold main, bind. now rewrite Hfetch.
Qed.

(** Every request the script sends to the feedback API goes to the notes
    URL with the bearer token read from the environment, API version 1, a
    page limit of 100 and the 14-day filter. *)
Theorem program_requests_are_authorized (env : environ) (svc : services)
    (fuel : nat) (token : str) :
  lookup env (of_string "PRODUCTBOARD_API_TOKEN") = Some token ->
  Forall (fun r =>
            req_url r = PRODUCTBOARD_API_NOTES_URL
            /\ lookup (req_headers r) (of_string "Authorization")
               = Some (of_string "Bearer " ++ token)
            /\ lookup (req_headers r) (of_string "X-Version")
               = Some (of_string "1")
            /\ pageLimit r = 100
            /\ last r = of_string "14d")
    (requests_of (snd (program env svc fuel))).
Proof.
  intros Htoken. unfold program.
  destruct (startup svc env) as [cfg | e |] eqn:Hstart; try constructor.
  assert (PRODUCTBOARD_API_TOKEN cfg = token) as Hcfg.
  { unfold startup, environ_item in Hstart. rewrite Htoken in Hstart.
    destruct (lookup env (of_string "SLACK_BOT_TOKEN")); [| discriminate].
    destruct (lookup env (of_string "OPENAI_API_KEY")) as [key |];
      [| discriminate].
    cbn [obind] in Hstart.
    destruct (new_openai_client svc key); [| discriminate | discriminate].
    cbn [obind] in Hstart. injection Hstart as <-. reflexivity. }
  rewrite main_requests.
  destruct (fetch_requests_prefix cfg svc fuel 14) as [k [_ ->]].
  apply Forall_forall. intros r Hr. apply in_map_iff in Hr.
  destruct Hr as [j [<- _]].
  unfold nth_request, page_request, fetch_headers. cbn [req_url req_headers
    pageLimit last]. rewrite Hcfg. repeat split.
Qed.

Lemma program_requests_are_authorized_witness :
  exists r,
    requests_of (snd (program Sample.env_without_channel
                        (Sample.scripted [Sample.page 0 2]) 1)) = [r]
    /\ lookup (req_headers r) (of_string "Authorization")
       = Some (of_string "Bearer pb-1").
Proof.
  pose proof (program_requests_are_authorized Sample.env_without_channel
                (Sample.scripted [Sample.page 0 2]) 1 (of_string "pb-1")
                eq_refl) as Hall.
  eexists. split; [reflexivity |].
  rewrite Forall_forall in Hall.
  apply (Hall _ (or_introl eq_refl)).
Defined.
